(** * Frostmist Pavilion calendar: the time-conversion core of [app.js]

    A shallow embedding of [getOffsetMinutes], [convertTime] and
    [updateAllTimes] (src/frostmist-pavilion/app.js, lines 39-88) and the
    properties of the written specification that concern them.

    Modelling conventions.
    - JavaScript strings are [string]s; a character outside ASCII is the
      sequence of its UTF-8 bytes, none of which is a digit or a colon, so the
      regular expression and [split] see the same structure.
    - A Number that holds an integer is [Int z] with [z : Z].  With the hours
      (0 to 24) and minutes (0 to 59) the locale primitive produces, every
      quantity the program computes is an integer far below 2^53, where IEEE
      doubles are exact.  [NaN] is kept, because the program can produce it.
    - The cache [_tzOffsetCache] is an ordinary object literal: a read
      [_tzOffsetCache[tz]] finds an own property or, failing that, a member
      inherited from [Object.prototype].
    - Exceptions and the mutable cache are threaded through a state-and-error
      monad [M].  The locale primitive [Intl.DateTimeFormat(..).formatToParts]
      is a parameter of the development. *)

From Stdlib Require Import ZArith String Ascii List Lia DecimalString.
From stdpp Require Import gmap strings list relations.

Local Open Scope Z_scope.

(** ** Numbers and values *)

Inductive number : Type :=
| Int (z : Z)
| NaN.

(** What a property read on the cache object can produce besides
    [undefined]: a number stored earlier, or the member of
    [Object.prototype] of that name (a function, or the prototype object
    itself for [__proto__]). *)
Inductive value : Type :=
| Num (n : number)
| Inherited (k : string).

Inductive error : Type :=
| RangeError
| TypeError.

Inductive result (A : Type) : Type :=
| Ok (a : A)
| Throw (e : error).
Arguments Ok {A} a.
Arguments Throw {A} e.

(** [x * y], [x + y], [x - y] on Numbers. *)
Definition mul (x y : number) : number :=
  match x, y with Int a, Int b => Int (a * b) | _, _ => NaN end.

Definition add (x y : number) : number :=
  match x, y with Int a, Int b => Int (a + b) | _, _ => NaN end.

Definition sub (x y : number) : number :=
  match x, y with Int a, Int b => Int (a - b) | _, _ => NaN end.

(** [x % y]: the remainder takes the sign of the dividend. *)
Definition rem (x y : number) : number :=
  match x, y with
  | Int a, Int b => if b =? 0 then NaN else Int (Z.rem a b)
  | _, _ => NaN
  end.

(** [Math.floor(x / y)]. *)
Definition floor_div (x y : number) : number :=
  match x, y with
  | Int a, Int b => if b =? 0 then NaN else Int (a / b)
  | _, _ => NaN
  end.

(** [x === y], [x !== y] and [x > y] on Numbers; [NaN] equals nothing. *)
Definition strict_eq (x y : number) : bool :=
  match x, y with Int a, Int b => a =? b | _, _ => false end.

Definition strict_ne (x y : number) : bool := negb (strict_eq x y).

Definition gt (x y : number) : bool :=
  match x, y with Int a, Int b => b <? a | _, _ => false end.

(** [n + v] and [n - v] where [v] is what [getOffsetMinutes] returned.  With
    an object operand [+] concatenates strings
    (["60function Object() { [native code] }"]); the only use of that sum is
    as the left operand of the [-] that follows, where [ToNumber] turns it
    into [NaN].  With an object operand [-] yields [NaN] directly. *)
Definition plus (n : number) (v : value) : number :=
  match v with Num k => add n k | Inherited _ => NaN end.

Definition minus (n : number) (v : value) : number :=
  match v with Num k => sub n k | Inherited _ => NaN end.

(** ** Strings: digits, [parseInt], [Number], [String], [padStart], [split] *)

Definition is_digit (c : ascii) : bool :=
  let n := N_of_ascii c in (48 <=? n)%N && (n <=? 57)%N.

Definition digit_value (c : ascii) : Z := Z.of_N (N_of_ascii c) - 48.

Definition decimal (ds : list ascii) : Z :=
  fold_left (fun acc c => 10 * acc + digit_value c) ds 0.

Fixpoint leading_digits (s : string) : list ascii :=
  match s with
  | String c r => if is_digit c then c :: leading_digits r else []
  | EmptyString => []
  end.

(** White space, as far as ASCII goes: tab, line feed, vertical tab, form
    feed, carriage return, space. *)
Definition is_space (c : ascii) : bool :=
  let n := N_of_ascii c in ((9 <=? n)%N && (n <=? 13)%N) || (n =? 32)%N.

Fixpoint skip_spaces (s : string) : string :=
  match s with
  | String c r => if is_space c then skip_spaces r else s
  | EmptyString => EmptyString
  end.

(** [parseInt(s, 10)]: leading white space, an optional sign, then the
    longest run of decimal digits; [NaN] when that run is empty. *)
Definition parseInt (s : string) : number :=
  let s1 := skip_spaces s in
  let '(sign, s2) :=
    match s1 with
    | String "-" r => (-1, r)
    | String "+" r => (1, r)
    | _ => (1, s1)
    end in
  match leading_digits s2 with
  | [] => NaN
  | ds => Int (sign * decimal ds)
  end.

Fixpoint all_digits (s : string) : bool :=
  match s with
  | String c r => is_digit c && all_digits r
  | EmptyString => true
  end.

(** [Number(s)] on the strings that reach it in [convertTime]: the pieces of
    a string accepted by the regular expression, which are non-empty runs of
    decimal digits.  Any other string is outside this model and is sent to
    [NaN]. *)
Definition Number (s : string) : number :=
  match s with
  | EmptyString => NaN
  | _ => if all_digits s then Int (decimal (list_ascii_of_string s)) else NaN
  end.

(** [String(n)]. *)
Definition String_of (n : number) : string :=
  match n with
  | Int z => NilZero.string_of_int (Z.to_int z)
  | NaN => "NaN"
  end.

Fixpoint repeat_char (k : nat) (c : ascii) : string :=
  match k with
  | O => EmptyString
  | S k' => String c (repeat_char k' c)
  end.

(** [s.padStart(len, fill)] for a one-character [fill]. *)
Definition padStart (len : nat) (fill : ascii) (s : string) : string :=
  repeat_char (len - String.length s) fill +:+ s.

(** [s.split(sep)] for a one-character separator. *)
Fixpoint split (sep : ascii) (s : string) : list string :=
  match s with
  | EmptyString => [EmptyString]
  | String c r =>
      if Ascii.eqb c sep then EmptyString :: split sep r
      else match split sep r with
           | p :: ps => String c p :: ps
           | [] => [String c EmptyString]
           end
  end.

(** [/^\d{1,2}:\d{2}$/.test(s)]: one or two digits, a colon, two digits, and
    nothing else. *)
Definition test_time (s : string) : bool :=
  match s with
  | String h1 (String c (String m1 (String m2 EmptyString))) =>
      is_digit h1 && Ascii.eqb c ":" && is_digit m1 && is_digit m2
  | String h1 (String h2 (String c (String m1 (String m2 EmptyString)))) =>
      is_digit h1 && is_digit h2 && Ascii.eqb c ":"
      && is_digit m1 && is_digit m2
  | _ => false
  end.

(** [const [h, m] = timeStr.split(':').map(Number)]; a missing element is
    [undefined], which behaves as [NaN] in the arithmetic that follows. *)
Definition split_clock (timeStr : string) : number * number :=
  match map Number (split ":" timeStr) with
  | h :: m :: _ => (h, m)
  | [h] => (h, NaN)
  | [] => (NaN, NaN)
  end.

(** ** The cache object and the program state *)

(** Names every object inherits from [Object.prototype]. *)
Definition objectPrototypeKeys : list string :=
  [ "constructor"; "hasOwnProperty"; "isPrototypeOf";
    "propertyIsEnumerable"; "toLocaleString"; "toString"; "valueOf";
    "__proto__"; "__defineGetter__"; "__defineSetter__";
    "__lookupGetter__"; "__lookupSetter__" ]%string.

(** [calls] logs every invocation of the locale primitive, in order: it is
    the call counter a test would instrument. *)
Record state : Type := mkState {
  cache : gmap string number;
  calls : list string
}.

Definition initial_state : state := mkState ∅ [].

(** [_tzOffsetCache[tz]]; [None] is [undefined]. *)
Definition cache_get (c : gmap string number) (tz : string) : option value :=
  match c !! tz with
  | Some n => Some (Num n)
  | None =>
      if bool_decide (tz ∈ objectPrototypeKeys) then Some (Inherited tz)
      else None
  end.

Definition M (A : Type) : Type := state -> result A * state.

Definition ret {A} (a : A) : M A := fun s => (Ok a, s).

Definition throw {A} (e : error) : M A := fun s => (Throw e, s).

Definition bind {A B} (m : M A) (k : A -> M B) : M B :=
  fun s =>
    match m s with
    | (Ok a, s') => k a s'
    | (Throw e, s') => (Throw e, s')
    end.

Notation "'let*' x := m 'in' k" := (bind m (fun x => k))
  (at level 10, x name, m at level 100, k at level 200).

Definition log_call (tz : string) : M unit :=
  fun s => (Ok tt, mkState (cache s) (calls s ++ [tz])).

Definition cache_put (tz : string) (n : number) : M unit :=
  fun s => (Ok tt, mkState (<[tz := n]> (cache s)) (calls s)).

(** ** The locale primitive *)

Record part : Type := mkPart {
  ptype : string;
  pvalue : string
}.

(** [parts.find(p => p.type === t)]. *)
Fixpoint find_part (t : string) (parts : list part) : option part :=
  match parts with
  | [] => None
  | p :: ps => if String.eqb (ptype p) t then Some p else find_part t ps
  end.

(** [x.value] where [x] came from [find]: a [TypeError] on [undefined]. *)
Definition value_of (x : option part) : M string :=
  match x with
  | Some p => ret (pvalue p)
  | None => throw TypeError
  end.

(** ** Conversion results and the rendered nodes *)

Record conversion : Type := mkConversion {
  display : string;
  dayOffset : number
}.

Inductive child : Type :=
| TextNode (data : string)
| Span (className textContent : string).

(** An element selected by [[data-base-time]]: its two data attributes
    ([data-note-prefix] may be absent) and its child nodes. *)
Record element : Type := mkElement {
  baseTime : string;
  notePrefix : option string;
  children : list child
}.

(** The globals [currentConfig.baseTimezone] (possibly absent) and
    [currentTimezone], and the time-bearing elements of the document in
    document order. *)
Record page : Type := mkPage {
  baseTimezone : option string;
  currentTimezone : string;
  nodes : list element
}.

(** [x || d] on an optional string: absent and empty are both falsy. *)
Definition or_default (x : option string) (d : string) : string :=
  match x with
  | Some EmptyString | None => d
  | Some s => s
  end.

(** The badge appended after the text node, if any. *)
Definition badge (dayOffset : number) : list child :=
  if strict_ne dayOffset (Int 0) then
    [Span "day-offset" (if gt dayOffset (Int 0) then "+1" else "-1")]
  else [].

(** The body of the [forEach] callback once the conversion has returned:
    every child is removed, then the text node and the badge are appended. *)
Definition repaint (el : element) (r : conversion) : element :=
  let prefix := or_default (notePrefix el) "" in
  mkElement (baseTime el) (notePrefix el)
            (TextNode (prefix +:+ display r) :: badge (dayOffset r)).

Section Core.

(** [new Intl.DateTimeFormat('en-US', {timeZone: tz, hour: '2-digit',
    minute: '2-digit', hour12: false}).formatToParts(ref)] for the fixed
    [ref = 2024-01-15T12:00:00Z]: the parts, or the error the constructor
    raises for a zone it does not know. *)
Variable formatToParts : string -> error + list part.

Definition intl (tz : string) : M (list part) :=
  fun s =>
    match formatToParts tz with
    | inr parts => (Ok parts, s)
    | inl e => (Throw e, s)
    end.

Definition getOffsetMinutes (tz : string) : M value :=
  fun s =>
    match cache_get (cache s) tz with
    | Some v => (Ok v, s)
    | None =>
        (let* _ := log_call tz in
         let* parts := intl tz in
         let* hv := value_of (find_part "hour" parts) in
         let h := parseInt hv in
         let* mv := value_of (find_part "minute" parts) in
         let m := parseInt mv in
         let h := if strict_eq h (Int 24) then Int 0 else h in
         let off := sub (Int (12 * 60)) (add (mul h (Int 60)) m) in
         let* _ := cache_put tz off in
         ret (Num off)) s
    end.

Definition convertTime (timeStr fromTz toTz : string) : M conversion :=
  if bool_decide (fromTz = toTz) || negb (test_time timeStr) then
    ret (mkConversion timeStr (Int 0))
  else
    let '(h, m) := split_clock timeStr in
    let* oF := getOffsetMinutes fromTz in
    let* oT := getOffsetMinutes toTz in
    let raw := minus (plus (add (mul h (Int 60)) m) oF) oT in
    let dayOffset := floor_div raw (Int 1440) in
    let normalized := rem (add (rem raw (Int 1440)) (Int 1440)) (Int 1440) in
    ret (mkConversion
           (padStart 2 "0" (String_of (floor_div normalized (Int 60)))
            +:+ ":" +:+
            padStart 2 "0" (String_of (rem normalized (Int 60))))
           dayOffset).

(** [querySelectorAll(..).forEach(el => ..)]: the elements are rewritten in
    place, in order; an exception leaves the current element and all later
    ones as they were. *)
Fixpoint forEach_repaint (fromTz toTz : string) (els : list element)
    (s : state) : list element * option error * state :=
  match els with
  | [] => ([], None, s)
  | el :: rest =>
      match convertTime (baseTime el) fromTz toTz s with
      | (Throw e, s') => (el :: rest, Some e, s')
      | (Ok r, s') =>
          let '(rest', err, s'') := forEach_repaint fromTz toTz rest s' in
          (repaint el r :: rest', err, s'')
      end
  end.

Definition updateAllTimes (p : page) (s : state)
    : page * option error * state :=
  let fromTz := or_default (baseTimezone p) "Asia/Taipei" in
  let '(els, err, s') :=
    forEach_repaint fromTz (currentTimezone p) (nodes p) s in
  (mkPage (baseTimezone p) (currentTimezone p) els, err, s').

(** *** Views of the code used to state its properties *)

(** The arithmetic of [getOffsetMinutes] past the cache test, without the
    state: what the primitive and the two [parseInt]s produce for [tz]. *)
Definition compute (tz : string) : result number :=
  match formatToParts tz with
  | inl e => Throw e
  | inr parts =>
      match find_part "hour" parts with
      | None => Throw TypeError
      | Some ph =>
          match find_part "minute" parts with
          | None => Throw TypeError
          | Some pm =>
              let h := parseInt (pvalue ph) in
              let m := parseInt (pvalue pm) in
              let h := if strict_eq h (Int 24) then Int 0 else h in
              Ok (sub (Int (12 * 60)) (add (mul h (Int 60)) m))
          end
      end
  end.

(** What a call [getOffsetMinutes(tz)] answers when the cache holds [c]. *)
Definition resolve (c : gmap string number) (tz : string) : result value :=
  match cache_get c tz with
  | Some v => Ok v
  | None =>
      match compute tz with
      | Ok n => Ok (Num n)
      | Throw e => Throw e
      end
  end.

(** The cache is written by [getOffsetMinutes] only, so the states of a
    running page are those a sequence of such calls produces. *)
Definition step (s s' : state) : Prop :=
  exists tz, s' = snd (getOffsetMinutes tz s).

Definition later : state -> state -> Prop := rtc step.

Definition reachable (s : state) : Prop := later initial_state s.

(** The primitive renders the reference instant in [tz] as hour [H] and
    minute [M]. *)
Definition yields (tz : string) (H Mi : Z) : Prop :=
  exists parts ph pm,
    formatToParts tz = inr parts /\
    find_part "hour" parts = Some ph /\ parseInt (pvalue ph) = Int H /\
    find_part "minute" parts = Some pm /\ parseInt (pvalue pm) = Int Mi.

(** [tz] has the resolved offset [o] in state [s]. *)
Definition resolved (s : state) (tz : string) (o : Z) : Prop :=
  fst (getOffsetMinutes tz s) = Ok (Num (Int o)).

End Core.

(** The hour and minute a string denotes when the regular expression accepts
    it. *)
Definition clock (t : string) : option (Z * Z) :=
  if test_time t then
    match split_clock t with
    | (Int h, Int m) => Some (h, m)
    | _ => None
    end
  else None.

(** The round trip of the specification: convert [t] from [A] to [B], convert
    the displayed string back from [B] to [A]; the hour and minute of [t]
    come back and the two day offsets cancel. *)
Definition round_trip (formatToParts : string -> error + list part)
    (t A B : string) (s : state) : Prop :=
  exists r1 s1 r2 s2,
    convertTime formatToParts t A B s = (Ok r1, s1) /\
    convertTime formatToParts (display r1) B A s1 = (Ok r2, s2) /\
    clock (display r2) = clock t /\
    add (dayOffset r1) (dayOffset r2) = Int 0.

(** What is asked of a rewritten node [el'] given the conversion [r] of the
    base time of [el]: the data attributes are kept, the content is one text
    node holding the optional prefix followed by the converted string, and
    after it comes no badge when the day offset is 0 and a single badge
    otherwise, reading "+1" for a positive and [negative] for a negative
    offset. *)
Definition painted_with (negative : string) (r : conversion)
    (el el' : element) : Prop :=
  baseTime el' = baseTime el /\
  notePrefix el' = notePrefix el /\
  exists badges,
    children el'
    = TextNode (match notePrefix el with Some p => p | None => "" end
                +:+ display r) :: badges /\
    (dayOffset r = Int 0 -> badges = []) /\
    (dayOffset r <> Int 0 ->
     exists text,
       badges = [Span "day-offset" text] /\
       (forall z, dayOffset r = Int z -> 0 < z -> text = "+1"%string) /\
       (forall z, dayOffset r = Int z -> z < 0 -> text = negative)).

(** With the badge text of the source, a hyphen-minus before the digit. *)
Definition painted (r : conversion) (el el' : element) : Prop :=
  painted_with "-1" r el el'.

(** With the badge text as the specification typesets it, a minus sign
    (U+2212) before the digit. *)
Definition painted_as_stated (r : conversion) (el el' : element) : Prop :=
  painted_with "−1" r el el'.

(** The node [el] of page [p] was converted and [el'] is what is asked of
    its rewriting. *)
Definition rewritten (formatToParts : string -> error + list part)
    (p : page) (s : state) (el el' : element) : Prop :=
  exists r,
    fst (convertTime formatToParts (baseTime el)
           (or_default (baseTimezone p) "Asia/Taipei")
           (currentTimezone p) s) = Ok r /\
    painted r el el'.

(** The pass as the specification states it: in every pass, every node is
    converted and rewritten, the negative badge reading as typeset there. *)
Definition pass_as_stated (formatToParts : string -> error + list part)
    (p : page) (s : state) : Prop :=
  Forall2 (fun el el' =>
             exists r,
               fst (convertTime formatToParts (baseTime el)
                      (or_default (baseTimezone p) "Asia/Taipei")
                      (currentTimezone p) s) = Ok r /\
               painted_as_stated r el el')
          (nodes p)
          (nodes (fst (fst (updateAllTimes formatToParts p s)))).

(** [((raw % 1440) + 1440) % 1440] on integers. *)
Definition normalize (raw : Z) : Z := Z.rem (Z.rem raw 1440 + 1440) 1440.

(** [String(n).padStart(2,'0')] on an integer. *)
Definition two_digits (n : Z) : string := padStart 2 "0" (String_of (Int n)).

(** The template literal of [convertTime] on an integer [normalized]. *)
Definition hhmm (normalized : Z) : string :=
  two_digits (normalized / 60) +:+ ":" +:+ two_digits (Z.rem normalized 60).

(** [two_digits n] is two decimal digits whose value is [n]. *)
Definition two_digits_ok (n : Z) : bool :=
  match two_digits n with
  | String a (String b EmptyString) =>
      is_digit a && is_digit b && (10 * digit_value a + digit_value b =? n)
  | _ => false
  end.

(** [convertTime] as a function of the answers of [getOffsetMinutes]. *)
Definition convert_view (offset : string -> result value)
    (timeStr fromTz toTz : string) : result conversion :=
  if bool_decide (fromTz = toTz) || negb (test_time timeStr) then
    Ok (mkConversion timeStr (Int 0))
  else
    let '(h, m) := split_clock timeStr in
    match offset fromTz with
    | Throw e => Throw e
    | Ok oF =>
        match offset toTz with
        | Throw e => Throw e
        | Ok oT =>
            let raw := minus (plus (add (mul h (Int 60)) m) oF) oT in
            let normalized :=
              rem (add (rem raw (Int 1440)) (Int 1440)) (Int 1440) in
            Ok (mkConversion
                  (padStart 2 "0" (String_of (floor_div normalized (Int 60)))
                   +:+ ":" +:+
                   padStart 2 "0" (String_of (rem normalized (Int 60))))
                  (floor_div raw (Int 1440)))
        end
    end.

(** [forEach_repaint] as a function of the answers of [getOffsetMinutes]:
    the rewritten elements and the error that stopped the pass, if any. *)
Fixpoint repaint_view (offset : string -> result value)
    (fromTz toTz : string) (els : list element)
    : list element * option error :=
  match els with
  | [] => ([], None)
  | el :: rest =>
      match convert_view offset (baseTime el) fromTz toTz with
      | Throw e => (el :: rest, Some e)
      | Ok r =>
          let '(rest', err) := repaint_view offset fromTz toTz rest in
          (repaint el r :: rest', err)
      end
  end.

(** ** A sample of the locale primitive

    What the primitive answers at 2024-01-15T12:00:00Z for a few zones:
    hour, a literal colon, minute.  Every other identifier is rejected with a
    [RangeError]. *)

Definition clock_parts (h m : string) : error + list part :=
  inr [mkPart "hour" h; mkPart "literal" ":"; mkPart "minute" m].

Definition sampleIntl (tz : string) : error + list part :=
  if String.eqb tz "Asia/Taipei" then clock_parts "20" "00"
  else if String.eqb tz "Asia/Shanghai" then clock_parts "20" "00"
  else if String.eqb tz "America/New_York" then clock_parts "07" "00"
  else if String.eqb tz "Asia/Kolkata" then clock_parts "17" "30"
  else if String.eqb tz "Pacific/Fiji" then clock_parts "24" "00"
  else if String.eqb tz "UTC" then clock_parts "12" "00"
  else inl RangeError.

(** ** The rest of [app.js]: escaping, the configuration URL, the day
    columns and the zone selector *)

(** [s.replace(/c/g, by)] for a pattern that is one literal character. *)
Fixpoint replace_all (c : ascii) (by_ : string) (s : string) : string :=
  match s with
  | EmptyString => EmptyString
  | String a r =>
      if Ascii.eqb a c then by_ +:+ replace_all c by_ r
      else String a (replace_all c by_ r)
  end.

Definition quote_char : ascii := ascii_of_nat 34.

(** [escHtml(str)] on [null]/[undefined] ([None]) or a string: four global
    replacements, the ampersand first. *)
Definition escHtml (str : option string) : string :=
  match str with
  | None => EmptyString
  | Some s =>
      replace_all quote_char "&quot;"
        (replace_all ">" "&gt;"
           (replace_all "<" "&lt;"
              (replace_all "&" "&amp;" s)))
  end.

(** What [escHtml] writes for one character. *)
Definition esc_char (a : ascii) : string :=
  if Ascii.eqb a "&" then "&amp;"
  else if Ascii.eqb a "<" then "&lt;"
  else if Ascii.eqb a ">" then "&gt;"
  else if Ascii.eqb a quote_char then "&quot;"
  else String a EmptyString.

(** What [escHtml] writes for a string, character by character. *)
Fixpoint esc_string (s : string) : string :=
  match s with
  | EmptyString => EmptyString
  | String a r => esc_char a +:+ esc_string r
  end.

Fixpoint starts_with (p s : string) : bool :=
  match p, s with
  | EmptyString, _ => true
  | String a p', String b s' => Ascii.eqb a b && starts_with p' s'
  | String _ _, EmptyString => false
  end.

(** The text after an ampersand completes one of the four entities. *)
Definition completes_entity (s : string) : bool :=
  starts_with "amp;" s || starts_with "lt;" s
  || starts_with "gt;" s || starts_with "quot;" s.

(** The node a pass leaves when the conversion is the pass-through: the
    prefix and the base time in one text node, no badge. *)
Definition shown_as_is (el : element) : element :=
  mkElement (baseTime el) (notePrefix el)
            [TextNode (or_default (notePrefix el) "" +:+ baseTime el)].

Definition is_special (a : ascii) : bool :=
  Ascii.eqb a "&" || Ascii.eqb a "<" || Ascii.eqb a ">"
  || Ascii.eqb a quote_char.

Fixpoint occurs (c : ascii) (s : string) : bool :=
  match s with
  | EmptyString => false
  | String a r => Ascii.eqb a c || occurs c r
  end.

Fixpoint has_special (s : string) : bool :=
  match s with
  | EmptyString => false
  | String a r => is_special a || has_special r
  end.

(** [s.replace(/\/[^/]*$/, '/')].  The pattern is tried at each position
    from the left; it matches at a slash that no other slash follows, and
    everything from that slash on is replaced by one slash.  A string
    without a slash is returned as it is. *)
Fixpoint strip_last_segment (s : string) : string :=
  match s with
  | EmptyString => EmptyString
  | String c r =>
      if Ascii.eqb c "/" && negb (occurs "/" r) then "/"
      else String c (strip_last_segment r)
  end.

(** [resolveConfigUrl()], given [params.get('config')] ([None] when the
    parameter is absent) and [window.location.pathname]. *)
Definition resolveConfigUrl (custom : option string) (pathname : string)
    : string :=
  match custom with
  | Some (String c r) => String c r
  | _ => strip_last_segment pathname +:+ "config.json"
  end.

(** The fields of an event of the configuration that reach a time-bearing
    element. *)
Record event : Type := mkEvent {
  ev_time : string;
  ev_note : option string;
  ev_noteTime : option string
}.

(** [if (x)] on an optional string. *)
Definition truthy (x : option string) : bool :=
  match x with
  | Some (String _ _) => true
  | _ => false
  end.

(** [el.textContent = s] on a fresh element: one text node, or no child
    when [s] is empty. *)
Definition set_textContent (s : string) : list child :=
  match s with
  | EmptyString => []
  | _ => [TextNode s]
  end.

(** The no-break space U+00A0, in UTF-8. *)
Definition nbsp : string :=
  String (ascii_of_nat 194) (String (ascii_of_nat 160) EmptyString).

(** The time-bearing elements one event card gets in [buildDayCol]: the
    [.event-time] element, and the [.event-note] element when the event has
    both a note and a note time. *)
Definition eventTimeNodes (ev : event) : list element :=
  mkElement (ev_time ev) None (set_textContent (ev_time ev))
  :: (if truthy (ev_note ev) && truthy (ev_noteTime ev) then
        let note := default EmptyString (ev_note ev) in
        let noteTime := default EmptyString (ev_noteTime ev) in
        [mkElement noteTime (Some (note +:+ nbsp))
           (set_textContent (note +:+ nbsp +:+ noteTime))]
      else []).

(** The time-bearing elements of [buildDayCol(day)], in document order;
    [events] is [day.events], possibly absent. *)
Definition buildDayCol (events : option (list event)) : list element :=
  flat_map eventTimeNodes (default [] events).

(** [el.textContent] read back: the text of the children, in order. *)
Definition child_text (c : child) : string :=
  match c with
  | TextNode data => data
  | Span _ text => text
  end.

Definition textContent (el : element) : string :=
  fold_right (fun c acc => child_text c +:+ acc) EmptyString (children el).

(** The two data attributes of an element. *)
Definition attributes (el : element) : string * option string :=
  (baseTime el, notePrefix el).

(** An entry of [cfg.timezones]. *)
Record zoneEntry : Type := mkZone {
  zone_id : string;
  zone_label : string
}.

(** The selector widget as the click handler sees it: for each [.tz-opt]
    whether it carries the class [selected], the text of the button label,
    and whether the dropdown is open. *)
Record selector : Type := mkSelector {
  selectedFlags : list bool;
  buttonLabel : string;
  isOpen : bool
}.

(** The click handler installed on the [i]-th option, built from the entry
    [tz]: every option is deselected, the clicked one selected, the button
    relabelled, the dropdown closed, [currentTimezone] assigned, and then
    [updateAllTimes()] runs.  An exception from the pass leaves all the
    assignments before it in place. *)
Definition clickOption (formatToParts : string -> error + list part)
    (i : nat) (tz : zoneEntry) (w : selector) (p : page) (s : state)
    : selector * page * option error * state :=
  let flags := <[i := true]> (map (fun _ => false) (selectedFlags w)) in
  let w' := mkSelector flags (zone_label tz) false in
  let p' := mkPage (baseTimezone p) (zone_id tz) (nodes p) in
  let '(p'', err, s') := updateAllTimes formatToParts p' s in
  (w', p'', err, s').

(** * Properties *)

(** ** Digits and clock strings *)

Lemma digit_not_colon (c : ascii) :
  is_digit c = true -> Ascii.eqb c ":" = false.
Proof.
  destruct c as [[] [] [] [] [] [] [] []]; vm_compute; congruence.
Qed.

Lemma digit_value_range (c : ascii) :
  is_digit c = true -> 0 <= digit_value c <= 9.
Proof.
  destruct c as [[] [] [] [] [] [] [] []]; vm_compute;
    intuition congruence.
Qed.

Lemma split_clock_short (h1 m1 m2 : ascii) :
  is_digit h1 = true -> is_digit m1 = true -> is_digit m2 = true ->
  split_clock (String h1 (String ":" (String m1 (String m2 EmptyString))))
  = (Int (digit_value h1), Int (10 * digit_value m1 + digit_value m2)).
Proof.
  intros H1 M1 M2. unfold split_clock. cbn [split].
  rewrite (digit_not_colon _ H1), (digit_not_colon _ M1),
    (digit_not_colon _ M2).
  cbn [Ascii.eqb Bool.eqb map Number all_digits list_ascii_of_string].
  rewrite H1, M1, M2. cbn [andb decimal fold_left].
  repeat f_equal; lia.
Qed.

Lemma split_clock_long (h1 h2 m1 m2 : ascii) :
  is_digit h1 = true -> is_digit h2 = true ->
  is_digit m1 = true -> is_digit m2 = true ->
  split_clock
    (String h1 (String h2 (String ":" (String m1 (String m2 EmptyString)))))
  = (Int (10 * digit_value h1 + digit_value h2),
     Int (10 * digit_value m1 + digit_value m2)).
Proof.
  intros H1 H2 M1 M2. unfold split_clock. cbn [split].
  rewrite (digit_not_colon _ H1), (digit_not_colon _ H2),
    (digit_not_colon _ M1), (digit_not_colon _ M2).
  cbn [Ascii.eqb Bool.eqb map Number all_digits list_ascii_of_string].
  rewrite H1, H2, M1, M2. cbn [andb decimal fold_left].
  repeat f_equal; lia.
Qed.

(** The two shapes the regular expression accepts. *)
Lemma test_time_shape (t : string) :
  test_time t = true ->
  (exists h1 m1 m2,
      t = String h1 (String ":" (String m1 (String m2 EmptyString))) /\
      is_digit h1 = true /\ is_digit m1 = true /\ is_digit m2 = true) \/
  (exists h1 h2 m1 m2,
      t = String h1 (String h2 (String ":" (String m1 (String m2 EmptyString))))
      /\ is_digit h1 = true /\ is_digit h2 = true
      /\ is_digit m1 = true /\ is_digit m2 = true).
Proof.
  intros H.
  destruct t as [|a [|b [|c [|d [|e [|f r]]]]]]; cbn in H; try discriminate.
  - left. rewrite !andb_true_iff in H. destruct H as [[[Ha Hb] Hc] Hd].
    apply Ascii.eqb_eq in Hb. subst b. eauto 10.
  - right. rewrite !andb_true_iff in H.
    destruct H as [[[[Ha Hb] Hc] Hd] He].
    apply Ascii.eqb_eq in Hc. subst c. eauto 10.
Qed.

(** A string the pattern accepts splits into two integers below 100. *)
Lemma test_time_split (t : string) :
  test_time t = true ->
  exists h m, split_clock t = (Int h, Int m) /\ 0 <= h <= 99 /\ 0 <= m <= 99.
Proof.
  intros H. destruct (test_time_shape t H)
    as [(h1 & m1 & m2 & -> & H1 & M1 & M2)
       |(h1 & h2 & m1 & m2 & -> & H1 & H2 & M1 & M2)].
  - rewrite split_clock_short by assumption.
    pose proof (digit_value_range _ H1). pose proof (digit_value_range _ M1).
    pose proof (digit_value_range _ M2).
    eexists _, _. split; [reflexivity|lia].
  - rewrite split_clock_long by assumption.
    pose proof (digit_value_range _ H1). pose proof (digit_value_range _ H2).
    pose proof (digit_value_range _ M1). pose proof (digit_value_range _ M2).
    eexists _, _. split; [reflexivity|lia].
Qed.

Lemma range_check (P : Z -> bool) (k : nat) :
  forallb (fun i => P (Z.of_nat i)) (seq 0 k) = true ->
  forall n, 0 <= n < Z.of_nat k -> P n = true.
Proof.
  intros H n Hn. rewrite forallb_forall in H.
  specialize (H (Z.to_nat n)). rewrite Z2Nat.id in H by lia.
  apply H, in_seq. lia.
Qed.

Lemma two_digits_spec (n : Z) :
  0 <= n < 100 ->
  exists a b,
    two_digits n = String a (String b EmptyString) /\
    is_digit a = true /\ is_digit b = true /\
    10 * digit_value a + digit_value b = n.
Proof.
  intros Hn.
  assert (Hok : two_digits_ok n = true).
  { apply (range_check two_digits_ok 100); [vm_compute; reflexivity|lia]. }
  unfold two_digits_ok in Hok.
  destruct (two_digits n) as [|a [|b [|c r]]]; try discriminate.
  rewrite !andb_true_iff in Hok. destruct Hok as [[Ha Hb] Hv].
  apply Z.eqb_eq in Hv. eauto 10.
Qed.

(** ** Day arithmetic *)

Lemma normalize_mod (raw : Z) : normalize raw = raw mod 1440.
Proof.
  unfold normalize.
  pose proof (Z.rem_bound_abs raw 1440 ltac:(lia)) as Hb.
  pose proof (Z.quot_rem' raw 1440) as Hq.
  rewrite Z.rem_mod_nonneg by lia.
  rewrite <- (Z_mod_plus_full (Z.rem raw 1440 + 1440) (raw ÷ 1440 - 1) 1440).
  f_equal. lia.
Qed.

Lemma normalize_range (raw : Z) : 0 <= normalize raw < 1440.
Proof. rewrite normalize_mod. apply Z.mod_pos_bound. lia. Qed.

Lemma day_decomposition (raw : Z) :
  raw = 1440 * (raw / 1440) + normalize raw.
Proof. rewrite normalize_mod. apply Z.div_mod. lia. Qed.

(** ** The displayed string *)

Lemma hhmm_shape (n : Z) :
  0 <= n < 1440 ->
  exists a b c d,
    hhmm n = String a (String b (String ":" (String c (String d EmptyString))))
    /\ is_digit a = true /\ is_digit b = true
    /\ is_digit c = true /\ is_digit d = true
    /\ 10 * digit_value a + digit_value b = n / 60
    /\ 10 * digit_value c + digit_value d = n mod 60.
Proof.
  intros Hn. unfold hhmm. rewrite Z.rem_mod_nonneg by lia.
  assert (Hh : 0 <= n / 60 < 100).
  { split; [apply Z.div_pos; lia|]. apply Z.div_lt_upper_bound; lia. }
  assert (Hm : 0 <= n mod 60 < 100).
  { pose proof (Z.mod_pos_bound n 60 ltac:(lia)). lia. }
  destruct (two_digits_spec _ Hh) as (a & b & -> & Ha & Hb & Hab).
  destruct (two_digits_spec _ Hm) as (c & d & -> & Hc & Hd & Hcd).
  exists a, b, c, d. cbn. auto 10.
Qed.

Lemma hhmm_clock (n : Z) :
  0 <= n < 1440 ->
  String.length (hhmm n) = 5%nat /\ test_time (hhmm n) = true /\
  clock (hhmm n) = Some (n / 60, n mod 60).
Proof.
  intros Hn.
  destruct (hhmm_shape n Hn)
    as (a & b & c & d & E & Ha & Hb & Hc & Hd & Hh & Hm).
  assert (Ht : test_time (hhmm n) = true).
  { rewrite E. cbn. rewrite Ha, Hb, Hc, Hd. reflexivity. }
  split; [rewrite E; reflexivity|]. split; [exact Ht|].
  unfold clock. rewrite Ht, E, split_clock_long by assumption.
  rewrite Hh, Hm. reflexivity.
Qed.

(** ** The cache object *)

Lemma cache_get_insert_same (c : gmap string number) tz n :
  cache_get (<[tz := n]> c) tz = Some (Num n).
Proof. unfold cache_get. rewrite lookup_insert_eq. reflexivity. Qed.

Lemma cache_get_insert_ne (c : gmap string number) tz k n :
  tz <> k -> cache_get (<[tz := n]> c) k = cache_get c k.
Proof. intros Hne. unfold cache_get. rewrite lookup_insert_ne; done. Qed.

Lemma cache_get_own (c : gmap string number) tz n :
  c !! tz = Some n -> cache_get c tz = Some (Num n).
Proof. intros H. unfold cache_get. rewrite H. reflexivity. Qed.

Lemma cache_get_none (c : gmap string number) tz :
  cache_get c tz = None -> c !! tz = None /\ tz ∉ objectPrototypeKeys.
Proof.
  unfold cache_get. destruct (c !! tz); [discriminate|].
  case_bool_decide; [discriminate|]. auto.
Qed.

(** ** The views depend on the answers of [getOffsetMinutes] only *)

Lemma convert_view_ext (f g : string -> result value) t fromTz toTz :
  (forall k, f k = g k) ->
  convert_view f t fromTz toTz = convert_view g t fromTz toTz.
Proof. intros E. unfold convert_view. rewrite !E. reflexivity. Qed.

Lemma repaint_view_ext (f g : string -> result value) fromTz toTz els :
  (forall k, f k = g k) ->
  repaint_view f fromTz toTz els = repaint_view g fromTz toTz els.
Proof.
  intros E. induction els as [|el rest IH]; cbn; [reflexivity|].
  rewrite (convert_view_ext f g) by exact E. rewrite IH. reflexivity.
Qed.

(** ** Rewriting the nodes *)

Lemma painted_repaint (el : element) (r : conversion) :
  painted r el (repaint el r).
Proof.
  unfold painted, painted_with, repaint. cbn. split; [reflexivity|].
  split; [reflexivity|]. exists (badge (dayOffset r)). split.
  { destruct (notePrefix el) as [[|c p]|]; reflexivity. }
  unfold badge, strict_ne, strict_eq, gt.
  split; [intros ->; reflexivity|]. intros Hnz.
  destruct (dayOffset r) as [z|].
  - destruct (Z.eqb_spec z 0) as [->|Hz]; [congruence|]. cbn.
    eexists. split; [reflexivity|].
    split; intros z' [= <-] Hz'.
    + rewrite (proj2 (Z.ltb_lt 0 z) Hz'). reflexivity.
    + destruct (Z.ltb_spec 0 z); [lia|reflexivity].
  - cbn. eexists. split; [reflexivity|]. split; intros z' [=].
Qed.

(** How a pass ends: with every node converted and rewritten, or at the
    first node whose conversion raises, the nodes before it rewritten and
    that node and the later ones as they were. *)
Lemma repaint_view_result (offset : string -> result value)
    (fromTz toTz : string) (els : list element) :
  let R := fun el el' =>
             exists r, convert_view offset (baseTime el) fromTz toTz = Ok r
                       /\ el' = repaint el r in
  match snd (repaint_view offset fromTz toTz els) with
  | None => Forall2 R els (fst (repaint_view offset fromTz toTz els))
  | Some e =>
      exists pre el post pre',
        els = pre ++ el :: post /\
        fst (repaint_view offset fromTz toTz els) = pre' ++ el :: post /\
        Forall2 R pre pre' /\
        convert_view offset (baseTime el) fromTz toTz = Throw e
  end.
Proof.
  intros R. induction els as [|el rest IH]; cbn; [constructor|].
  destruct (convert_view offset (baseTime el) fromTz toTz) as [r|e] eqn:Ec.
  - destruct (repaint_view offset fromTz toTz rest) as [rest' [e|]];
      cbn [fst snd] in IH |- *.
    + destruct IH as (pre & el0 & post & pre' & -> & -> & HF & HT).
      exists (el :: pre), el0, post, (repaint el r :: pre').
      repeat split; [|exact HT]. constructor; [|exact HF].
      exists r. auto.
    + constructor; [|exact IH]. exists r. auto.
  - cbn [fst snd]. exists [], el, rest, []. repeat split; [constructor|].
    exact Ec.
Qed.

Lemma repaint_view_completes (offset : string -> result value)
    (fromTz toTz : string) (els : list element) :
  snd (repaint_view offset fromTz toTz els) = None <->
  Forall (fun el => exists r,
            convert_view offset (baseTime el) fromTz toTz = Ok r) els.
Proof.
  induction els as [|el rest IH]; cbn; [split; [constructor|reflexivity]|].
  destruct (convert_view offset (baseTime el) fromTz toTz) as [r|e] eqn:Ec.
  - destruct (repaint_view offset fromTz toTz rest) as [rest' err].
    cbn [snd] in IH |- *. rewrite IH. split.
    + intros H. constructor; [rewrite Ec; eauto|exact H].
    + intros H. apply Forall_cons in H as [_ H]. exact H.
  - cbn [snd]. split; [discriminate|]. intros H.
    apply Forall_cons in H as [[r Hr] _]. congruence.
Qed.


Lemma clock_inv (t : string) (h m : Z) :
  clock t = Some (h, m) ->
  test_time t = true /\ split_clock t = (Int h, Int m) /\
  0 <= h <= 99 /\ 0 <= m <= 99.
Proof.
  unfold clock. destruct (test_time t) eqn:Ht; [|discriminate].
  destruct (test_time_split t Ht) as (h' & m' & E & Hh & Hm).
  rewrite E. intros [= <- <-]. auto.
Qed.

Section CoreFacts.

Variable formatToParts : string -> error + list part.

Local Abbreviation getOffsetMinutes := (getOffsetMinutes formatToParts).
Local Abbreviation convertTime := (convertTime formatToParts).
Local Abbreviation forEach_repaint := (forEach_repaint formatToParts).
Local Abbreviation updateAllTimes := (updateAllTimes formatToParts).
Local Abbreviation compute := (compute formatToParts).
Local Abbreviation resolve := (resolve formatToParts).
Local Abbreviation later := (later formatToParts).
Local Abbreviation step := (step formatToParts).
Local Abbreviation reachable := (reachable formatToParts).

(** ** [getOffsetMinutes]: cache hit, computation, failure *)

Lemma getOffsetMinutes_unfold tz s :
  getOffsetMinutes tz s =
  match cache_get (cache s) tz with
  | Some v => (Ok v, s)
  | None =>
      match compute tz with
      | Ok n => (Ok (Num n), mkState (<[tz := n]> (cache s)) (calls s ++ [tz]))
      | Throw e => (Throw e, mkState (cache s) (calls s ++ [tz]))
      end
  end.
Proof.
  unfold getOffsetMinutes, compute.
  destruct (cache_get (cache s) tz); [reflexivity|].
  unfold bind, log_call, intl, value_of, cache_put, ret, throw. cbn.
  destruct (formatToParts tz) as [e|parts]; [reflexivity|].
  destruct (find_part "hour" parts); [|reflexivity].
  destruct (find_part "minute" parts); reflexivity.
Qed.

Lemma getOffsetMinutes_fst tz s :
  fst (getOffsetMinutes tz s) = resolve (cache s) tz.
Proof.
  rewrite getOffsetMinutes_unfold. unfold resolve.
  destruct (cache_get (cache s) tz); [reflexivity|].
  destruct (compute tz); reflexivity.
Qed.

Lemma getOffsetMinutes_hit tz s v :
  cache_get (cache s) tz = Some v -> getOffsetMinutes tz s = (Ok v, s).
Proof. intros H. rewrite getOffsetMinutes_unfold, H. reflexivity. Qed.

(** A call never changes what a read of the cache already finds. *)
Lemma cache_get_step tz s k v :
  cache_get (cache s) k = Some v ->
  cache_get (cache (snd (getOffsetMinutes tz s))) k = Some v.
Proof.
  intros Hk. rewrite getOffsetMinutes_unfold.
  destruct (cache_get (cache s) tz) eqn:Htz; [exact Hk|].
  destruct (compute tz); cbn; [|exact Hk].
  rewrite cache_get_insert_ne; [exact Hk|]. congruence.
Qed.

(** A call never changes what any later call answers. *)
Lemma resolve_step tz s k :
  resolve (cache (snd (getOffsetMinutes tz s))) k = resolve (cache s) k.
Proof.
  rewrite getOffsetMinutes_unfold.
  destruct (cache_get (cache s) tz) eqn:Htz; [reflexivity|].
  destruct (compute tz) as [n|e] eqn:Hc; cbn; [|reflexivity].
  unfold resolve. destruct (decide (tz = k)) as [->|Hne].
  - rewrite cache_get_insert_same, Htz, Hc. reflexivity.
  - rewrite cache_get_insert_ne by done. reflexivity.
Qed.

Lemma later_step tz s : later s (snd (getOffsetMinutes tz s)).
Proof. apply rtc_once. exists tz. reflexivity. Qed.

Lemma cache_get_later s s' k v :
  later s s' -> cache_get (cache s) k = Some v ->
  cache_get (cache s') k = Some v.
Proof.
  induction 1 as [|s1 s2 s3 [tz ->] _ IH]; [auto|].
  intros Hk. apply IH, cache_get_step, Hk.
Qed.

Lemma resolve_later s s' k :
  later s s' -> resolve (cache s') k = resolve (cache s) k.
Proof.
  induction 1 as [|s1 s2 s3 [tz ->] _ IH]; [reflexivity|].
  rewrite IH. apply resolve_step.
Qed.

(** ** [convertTime] and the pass as functions of the resolved offsets *)

Lemma convertTime_view t fromTz toTz s :
  fst (convertTime t fromTz toTz s)
  = convert_view (resolve (cache s)) t fromTz toTz /\
  later s (snd (convertTime t fromTz toTz s)).
Proof.
  unfold convertTime, convert_view.
  destruct (bool_decide (fromTz = toTz) || negb (test_time t)).
  { split; [reflexivity|apply rtc_refl]. }
  destruct (split_clock t) as [h m]. unfold bind.
  pose proof (getOffsetMinutes_fst fromTz s) as HF.
  pose proof (later_step fromTz s) as LF.
  destruct (getOffsetMinutes fromTz s) as [[oF|e] s1]; cbn in HF, LF;
    rewrite <- HF; [|split; [reflexivity|exact LF]].
  pose proof (getOffsetMinutes_fst toTz s1) as HT.
  pose proof (later_step toTz s1) as LT.
  rewrite (resolve_later _ _ _ LF) in HT.
  destruct (getOffsetMinutes toTz s1) as [[oT|e] s2]; cbn in HT, LT;
    rewrite <- HT; cbn;
    (split; [reflexivity|eapply rtc_trans; eassumption]).
Qed.

Lemma forEach_repaint_view fromTz toTz els s :
  fst (forEach_repaint fromTz toTz els s)
  = repaint_view (resolve (cache s)) fromTz toTz els /\
  later s (snd (forEach_repaint fromTz toTz els s)).
Proof.
  revert s. induction els as [|el rest IH]; intros s; cbn.
  { split; [reflexivity|apply rtc_refl]. }
  destruct (convertTime_view (baseTime el) fromTz toTz s) as [HV HL].
  destruct (convertTime (baseTime el) fromTz toTz s) as [[r|e] s1];
    cbn in HV, HL; rewrite <- HV; [|split; [reflexivity|exact HL]].
  destruct (IH s1) as [HV1 HL1].
  rewrite (repaint_view_ext _ (resolve (cache s))) in HV1
    by (intros k; apply resolve_later, HL).
  destruct (forEach_repaint fromTz toTz rest s1) as [[rest' err] s2].
  cbn in HV1, HL1. rewrite <- HV1.
  split; [reflexivity|eapply rtc_trans; eassumption].
Qed.

Lemma updateAllTimes_view p s :
  updateAllTimes p s =
  (mkPage (baseTimezone p) (currentTimezone p)
     (fst (repaint_view (resolve (cache s))
             (or_default (baseTimezone p) "Asia/Taipei")
             (currentTimezone p) (nodes p))),
   snd (repaint_view (resolve (cache s))
          (or_default (baseTimezone p) "Asia/Taipei")
          (currentTimezone p) (nodes p)),
   snd (updateAllTimes p s)) /\
  later s (snd (updateAllTimes p s)).
Proof.
  unfold updateAllTimes.
  destruct (forEach_repaint_view
              (or_default (baseTimezone p) "Asia/Taipei")
              (currentTimezone p) (nodes p) s) as [HV HL].
  destruct (forEach_repaint _ _ (nodes p) s) as [[els err] s'].
  cbn in HV, HL. rewrite <- HV. cbn. auto.
Qed.

(** ** [convertTime] without conversion *)

Lemma convertTime_guard t fromTz toTz s :
  bool_decide (fromTz = toTz) || negb (test_time t) = true ->
  convertTime t fromTz toTz s = (Ok (mkConversion t (Int 0)), s).
Proof. intros E. unfold convertTime. rewrite E. reflexivity. Qed.

(** ** [convertTime] on resolved integer offsets *)

Lemma resolved_resolve s tz o :
  resolved formatToParts s tz o -> resolve (cache s) tz = Ok (Num (Int o)).
Proof. unfold resolved. rewrite getOffsetMinutes_fst. auto. Qed.

Lemma convert_view_int (offset : string -> result value)
    t fromTz toTz h m oF oT :
  fromTz <> toTz -> test_time t = true -> split_clock t = (Int h, Int m) ->
  offset fromTz = Ok (Num (Int oF)) -> offset toTz = Ok (Num (Int oT)) ->
  convert_view offset t fromTz toTz
  = Ok (mkConversion (hhmm (normalize (h * 60 + m + oF - oT)))
                     (Int ((h * 60 + m + oF - oT) / 1440))).
Proof.
  intros Hne Ht Hs HF HT. unfold convert_view.
  rewrite bool_decide_eq_false_2 by exact Hne.
  rewrite Ht, Hs, HF, HT. reflexivity.
Qed.

Lemma convertTime_int s t fromTz toTz h m oF oT :
  fromTz <> toTz -> test_time t = true -> split_clock t = (Int h, Int m) ->
  resolved formatToParts s fromTz oF -> resolved formatToParts s toTz oT ->
  exists s',
    later s s' /\
    convertTime t fromTz toTz s
    = (Ok (mkConversion (hhmm (normalize (h * 60 + m + oF - oT)))
                        (Int ((h * 60 + m + oF - oT) / 1440))), s').
Proof.
  intros Hne Ht Hs HF HT.
  destruct (convertTime_view t fromTz toTz s) as [HV HL].
  rewrite (convert_view_int _ t fromTz toTz h m oF oT) in HV
    by auto using resolved_resolve.
  destruct (convertTime t fromTz toTz s) as [r s']. cbn in HV, HL.
  exists s'. subst r. auto.
Qed.

(** Resolved offsets stay resolved, with the same value, ever after. *)
Lemma resolved_later s s' tz o :
  later s s' -> resolved formatToParts s tz o ->
  resolved formatToParts s' tz o.
Proof.
  unfold resolved. rewrite !getOffsetMinutes_fst. intros HL H.
  rewrite (resolve_later _ _ _ HL). exact H.
Qed.

(** ** Reachable states, accepted and rejected identifiers *)

(** Every number the cache holds was computed for its key. *)
Lemma reachable_cache_sound s :
  reachable s ->
  forall tz n, cache s !! tz = Some n -> compute tz = Ok n.
Proof.
  unfold reachable, later. intros Hr. pattern s.
  eapply rtc_ind_r; [|clear s Hr|exact Hr].
  { intros tz n. cbn. rewrite lookup_empty. discriminate. }
  intros s1 s2 _ [tz0 ->] IH tz n.
  rewrite getOffsetMinutes_unfold.
  destruct (cache_get (cache s1) tz0) eqn:Hget; [apply IH|].
  destruct (compute tz0) as [n0|e] eqn:Hc; cbn; [|apply IH].
  destruct (decide (tz0 = tz)) as [->|Hne].
  - rewrite lookup_insert_eq. congruence.
  - rewrite lookup_insert_ne by done. apply IH.
Qed.

Lemma yields_compute tz H Mi :
  yields formatToParts tz H Mi ->
  compute tz
  = Ok (Int (12 * 60 - ((if H =? 24 then 0 else H) * 60 + Mi))).
Proof.
  intros (parts & ph & pm & Ef & Eh & Ph & Em & Pm).
  unfold compute. rewrite Ef, Eh, Em, Ph, Pm. cbn.
  destruct (H =? 24); reflexivity.
Qed.

(** An identifier the primitive rejects, met for the first time. *)
Lemma getOffsetMinutes_rejects tz s e :
  cache_get (cache s) tz = None ->
  formatToParts tz = inl e ->
  getOffsetMinutes tz s = (Throw e, mkState (cache s) (calls s ++ [tz])).
Proof.
  intros Hget Hf. rewrite getOffsetMinutes_unfold, Hget.
  unfold compute. rewrite Hf. reflexivity.
Qed.

(** No local handler: the error leaves [convertTime] as it came. *)
Lemma convertTime_rejects t fromTz toTz s e :
  fromTz <> toTz -> test_time t = true ->
  cache_get (cache s) fromTz = None ->
  formatToParts fromTz = inl e ->
  fst (convertTime t fromTz toTz s) = Throw e.
Proof.
  intros Hne Ht Hget Hf. unfold convertTime.
  rewrite bool_decide_eq_false_2, Ht by exact Hne. cbn.
  destruct (split_clock t) as [h m]. unfold bind.
  rewrite (getOffsetMinutes_rejects _ _ e) by assumption. reflexivity.
Qed.

(** The cache never gets an own property under an inherited name, so in
    every state of the page such a name is answered from the prototype, for
    any primitive. *)
Lemma getOffsetMinutes_inherited k s :
  k ∈ objectPrototypeKeys -> reachable s ->
  getOffsetMinutes k s = (Ok (Inherited k), s).
Proof.
  intros Hk Hr. apply getOffsetMinutes_hit.
  enough (cache s !! k = None) as Hnone.
  { unfold cache_get. rewrite Hnone, bool_decide_eq_true_2 by exact Hk.
    reflexivity. }
  unfold reachable, later in Hr. pattern s.
  eapply rtc_ind_r; [|clear s Hr|exact Hr]; [apply lookup_empty|].
  intros s1 s2 _ [tz0 ->] IH. rewrite getOffsetMinutes_unfold.
  destruct (cache_get (cache s1) tz0) eqn:Hget; [exact IH|].
  destruct (compute tz0); cbn; [|exact IH].
  rewrite lookup_insert_ne; [exact IH|]. intros ->.
  apply cache_get_none in Hget. tauto.
Qed.

End CoreFacts.

(** * The claims of the specification *)

(** ** The conversion arithmetic *)

(** C1. For a string accepted by the pattern, with parsed hour [h] and minute
    [m], and two distinct zones whose offsets resolve to [oF] and [oT],
    [convertTime] computes [raw = h*60 + m + oF - oT] on the integers and
    returns [dayOffset = floor(raw / 1440)] together with the rendering of
    [normalized = ((raw % 1440) + 1440) % 1440], which lies in [0, 1440) and
    is the non-negative residue of [raw] whatever the sign convention of the
    remainder; the rendered string reads back as [normalized] minutes.  With
    [oF = -480], [oT = 300] and input "09:00" the result is "20:00" with
    [dayOffset = -1]. *)
Theorem C1_conversion_formula (formatToParts : string -> error + list part)
    (s : state) (timeStr fromTz toTz : string) (h m oF oT : Z) :
  test_time timeStr = true ->
  split_clock timeStr = (Int h, Int m) ->
  fromTz <> toTz ->
  resolved formatToParts s fromTz oF ->
  resolved formatToParts s toTz oT ->
  let raw := h * 60 + m + oF - oT in
  let normalized := Z.rem (Z.rem raw 1440 + 1440) 1440 in
  (exists s',
      convertTime formatToParts timeStr fromTz toTz s
      = (Ok (mkConversion (hhmm normalized) (Int (raw / 1440))), s')) /\
  0 <= normalized < 1440 /\
  normalized = (raw mod 1440 + 1440) mod 1440 /\
  raw = 1440 * (raw / 1440) + normalized /\
  clock (hhmm normalized) = Some (normalized / 60, normalized mod 60) /\
  60 * (normalized / 60) + normalized mod 60 = normalized /\
  (timeStr = "09:00"%string -> oF = -480 -> oT = 300 ->
   hhmm normalized = "20:00"%string /\ raw / 1440 = -1).
Proof.
  intros Ht Hs Hne HF HT raw normalized.
  change normalized with (normalize raw).
  pose proof (normalize_range raw) as Hr.
  split.
  { destruct (convertTime_int formatToParts s timeStr fromTz toTz h m oF oT)
      as (s' & _ & E); auto. exists s'. exact E. }
  split; [exact Hr|]. split.
  { rewrite normalize_mod, Zplus_mod_idemp_l.
    rewrite <- (Z_mod_plus_full raw 1 1440) at 1. reflexivity. }
  split; [apply day_decomposition|]. split; [apply hhmm_clock, Hr|].
  split.
  { pose proof (Z.div_mod (normalize raw) 60 ltac:(lia)). lia. }
  intros -> -> ->. subst raw. vm_compute in Hs.
  injection Hs as <- <-. split; reflexivity.
Qed.

Lemma C1_conversion_formula_witness :
  exists s',
    convertTime sampleIntl "09:00" "Asia/Taipei" "America/New_York"
      initial_state
    = (Ok (mkConversion "20:00" (Int (-1))), s').
Proof.
  destruct (C1_conversion_formula sampleIntl initial_state "09:00"
              "Asia/Taipei" "America/New_York" 9 0 (-480) 300)
    as [[s' E] _].
  - reflexivity.
  - reflexivity.
  - discriminate.
  - reflexivity.
  - reflexivity.
  - exists s'. exact E.
Defined.

(** ** Offsets *)

(** C2. Whenever the locale primitive renders the reference instant
    2024-01-15T12:00:00Z in zone [tz] as local hour [H] and minute [M],
    [getOffsetMinutes tz] returns [12*60 - (H'*60 + M)], where [H'] is 0 when
    [H] is 24 and [H] otherwise.  A zone five hours behind UTC (local 07:00)
    gets +300 and a zone eight hours ahead (local 20:00) gets -480.  The
    statement is about any state the page can be in, and uses that no member
    name of [Object.prototype] is a zone the primitive knows. *)
Theorem C2_offset_formula (formatToParts : string -> error + list part)
    (s : state) (tz : string) (H Mi : Z) :
  (forall k, k ∈ objectPrototypeKeys -> exists e, formatToParts k = inl e) ->
  reachable formatToParts s ->
  yields formatToParts tz H Mi ->
  let H' := if H =? 24 then 0 else H in
  fst (getOffsetMinutes formatToParts tz s)
  = Ok (Num (Int (12 * 60 - (H' * 60 + Mi)))) /\
  (H = 7 -> Mi = 0 ->
   fst (getOffsetMinutes formatToParts tz s) = Ok (Num (Int 300))) /\
  (H = 20 -> Mi = 0 ->
   fst (getOffsetMinutes formatToParts tz s) = Ok (Num (Int (-480)))).
Proof.
  intros Hproto Hreach Hy H'.
  assert (E : fst (getOffsetMinutes formatToParts tz s)
              = Ok (Num (Int (12 * 60 - (H' * 60 + Mi))))).
  { pose proof (yields_compute _ _ _ _ Hy) as Hc. fold H' in Hc.
    rewrite getOffsetMinutes_fst. unfold resolve, cache_get.
    destruct (cache s !! tz) as [n|] eqn:Hown.
    - rewrite (reachable_cache_sound _ _ Hreach _ _ Hown) in Hc.
      congruence.
    - case_bool_decide as Hk; [|rewrite Hc; reflexivity].
      destruct (Hproto _ Hk) as [e He].
      destruct Hy as (parts & _ & _ & Ef & _). congruence. }
  split; [exact E|]. split; intros HH HM; rewrite E; subst H' H Mi;
    reflexivity.
Qed.

Lemma sampleIntl_rejects_inherited_names (k : string) :
  k ∈ objectPrototypeKeys -> exists e, sampleIntl k = inl e.
Proof.
  intros Hk. unfold objectPrototypeKeys in Hk.
  repeat (apply elem_of_cons in Hk as [->|Hk];
          [exists RangeError; reflexivity|]).
  apply elem_of_nil in Hk. destruct Hk.
Qed.

Lemma C2_offset_formula_witness :
  fst (getOffsetMinutes sampleIntl "Asia/Taipei" initial_state)
  = Ok (Num (Int (-480))).
Proof.
  apply (C2_offset_formula sampleIntl initial_state "Asia/Taipei" 20 0).
  - exact sampleIntl_rejects_inherited_names.
  - apply rtc_refl.
  - exists [mkPart "hour" "20"; mkPart "literal" ":"; mkPart "minute" "00"],
      (mkPart "hour" "20"), (mkPart "minute" "00").
    repeat split; reflexivity.
  - reflexivity.
  - reflexivity.
Defined.

(** ** Round trip *)

(** C3, as the specification states it, fails on a string the pattern
    accepts but whose hour is not a clock hour: "24:00" converted from
    Asia/Taipei to America/New_York is "11:00" on the same day, and "11:00"
    converted back is "00:00" on the next day.  The hour 24 is not
    recovered and the day offsets add up to 1. *)
Lemma C3_round_trip_counterexample :
  ~ round_trip sampleIntl "24:00" "Asia/Taipei" "America/New_York"
      initial_state.
Proof.
  intros (r1 & s1 & r2 & s2 & E1 & E2 & Hc & _).
  destruct (convertTime_view sampleIntl "24:00" "Asia/Taipei"
              "America/New_York" initial_state) as [V1 L1].
  rewrite E1 in V1, L1. cbn [fst snd] in V1, L1.
  vm_compute in V1. injection V1 as ->.
  destruct (convertTime_view sampleIntl "11:00" "America/New_York"
              "Asia/Taipei" s1) as [V2 _].
  cbn [display] in E2. rewrite E2 in V2. cbn [fst] in V2.
  rewrite (convert_view_ext _ (resolve sampleIntl (cache initial_state)))
    in V2 by (intros k; apply resolve_later, L1).
  vm_compute in V2. injection V2 as ->.
  vm_compute in Hc. discriminate.
Qed.

(** C3, amended.  For a string accepted by the pattern whose hour is at most
    23 and whose minute is at most 59, and two zones with resolved offsets,
    converting from [A] to [B] and converting the displayed string back from
    [B] to [A] recovers the hour and the minute, and the two day offsets add
    up to 0. *)
Theorem C3_round_trip_clock_times
    (formatToParts : string -> error + list part)
    (s : state) (t A B : string) (h m oA oB : Z) :
  clock t = Some (h, m) ->
  h <= 23 -> m <= 59 ->
  resolved formatToParts s A oA ->
  resolved formatToParts s B oB ->
  round_trip formatToParts t A B s.
Proof.
  intros Hc Hh Hm HA HB.
  destruct (clock_inv t h m Hc) as (Ht & Hs & Hh0 & Hm0).
  unfold round_trip. destruct (decide (A = B)) as [->|Hne].
  { exists (mkConversion t (Int 0)), s, (mkConversion t (Int 0)), s.
    cbn [display dayOffset].
    rewrite convertTime_guard by (rewrite bool_decide_eq_true_2; auto).
    auto. }
  destruct (convertTime_int formatToParts s t A B h m oA oB)
    as (s1 & L1 & E1); auto.
  set (raw1 := h * 60 + m + oA - oB) in *.
  pose proof (normalize_range raw1) as Hr1.
  pose proof (day_decomposition raw1) as Hd1.
  destruct (hhmm_clock _ Hr1) as (_ & _ & Hc1).
  destruct (clock_inv _ _ _ Hc1) as (Ht1 & Hs1 & _).
  destruct (convertTime_int formatToParts s1 (hhmm (normalize raw1)) B A
              (normalize raw1 / 60) (normalize raw1 mod 60) oB oA)
    as (s2 & _ & E2); eauto using resolved_later.
  set (raw2 := normalize raw1 / 60 * 60 + normalize raw1 mod 60 + oB - oA)
    in *.
  assert (R2 : raw2 = (h * 60 + m) + (- (raw1 / 1440)) * 1440).
  { pose proof (Z.div_mod (normalize raw1) 60 ltac:(lia)).
    unfold raw2, raw1 in *. lia. }
  assert (N2 : normalize raw2 = h * 60 + m).
  { rewrite normalize_mod, R2, Z_mod_plus_full. apply Z.mod_small. lia. }
  assert (D2 : raw2 / 1440 = - (raw1 / 1440)).
  { rewrite R2, Z.div_add by lia. rewrite Z.div_small by lia. lia. }
  eexists _, s1, _, s2. split; [exact E1|]. split; [exact E2|].
  cbn [display dayOffset add]. split.
  - rewrite N2, Hc.
    destruct (hhmm_clock (h * 60 + m) ltac:(lia)) as (_ & _ & ->).
    f_equal. f_equal.
    + rewrite Z.div_add_l by lia. rewrite Z.div_small by lia. lia.
    + rewrite Z.add_comm, Z_mod_plus_full. apply Z.mod_small. lia.
  - rewrite D2. f_equal. lia.
Qed.

Lemma C3_round_trip_clock_times_witness :
  round_trip sampleIntl "09:00" "Asia/Taipei" "America/New_York"
    initial_state.
Proof.
  apply (C3_round_trip_clock_times sampleIntl initial_state "09:00"
           "Asia/Taipei" "America/New_York" 9 0 (-480) 300).
  - reflexivity.
  - lia.
  - lia.
  - reflexivity.
  - reflexivity.
Defined.

(** ** Pass-through *)

(** C4. When the two zones are the same identifier, or the string is not
    accepted by the pattern [^\d{1,2}:\d{2}$], [convertTime] returns the
    input string unchanged as [display] with [dayOffset] 0; it consults
    neither the cache nor the locale primitive, so the state is untouched. *)
Theorem C4_pass_through (formatToParts : string -> error + list part)
    (timeStr fromTz toTz : string) (s : state) :
  fromTz = toTz \/ test_time timeStr = false ->
  convertTime formatToParts timeStr fromTz toTz s
  = (Ok (mkConversion timeStr (Int 0)), s).
Proof.
  intros H. apply convertTime_guard. destruct H as [H|H].
  - rewrite bool_decide_eq_true_2 by exact H. reflexivity.
  - rewrite H. apply orb_true_r.
Qed.

Lemma C4_pass_through_witness :
  convertTime sampleIntl "時間待定" "Asia/Taipei" "America/New_York"
    initial_state
  = (Ok (mkConversion "時間待定" (Int 0)), initial_state).
Proof.
  apply (C4_pass_through sampleIntl "時間待定" "Asia/Taipei"
           "America/New_York" initial_state).
  right. reflexivity.
Defined.

(** ** The displayed string *)

(** C5. For a string accepted by the pattern and two distinct zones with
    resolved offsets, the returned [display] is exactly five characters: two
    decimal digits, a colon, two decimal digits.  The hour digits spell
    [floor(normalized / 60)], which lies in [0, 23], and the minute digits
    spell [normalized mod 60], which lies in [0, 59], also when the input
    hour had a single digit. *)
Theorem C5_display_shape (formatToParts : string -> error + list part)
    (s : state) (timeStr fromTz toTz : string) (h m oF oT : Z) :
  test_time timeStr = true ->
  split_clock timeStr = (Int h, Int m) ->
  fromTz <> toTz ->
  resolved formatToParts s fromTz oF ->
  resolved formatToParts s toTz oT ->
  let normalized := normalize (h * 60 + m + oF - oT) in
  exists r s' a b c d,
    convertTime formatToParts timeStr fromTz toTz s = (Ok r, s') /\
    display r
    = String a (String b (String ":" (String c (String d EmptyString)))) /\
    is_digit a = true /\ is_digit b = true /\
    is_digit c = true /\ is_digit d = true /\
    10 * digit_value a + digit_value b = normalized / 60 /\
    10 * digit_value c + digit_value d = normalized mod 60 /\
    0 <= normalized / 60 <= 23 /\ 0 <= normalized mod 60 <= 59.
Proof.
  intros Ht Hs Hne HF HT normalized.
  destruct (convertTime_int formatToParts s timeStr fromTz toTz h m oF oT)
    as (s' & _ & E); auto.
  pose proof (normalize_range (h * 60 + m + oF - oT)) as Hr.
  fold normalized in E, Hr.
  destruct (hhmm_shape normalized Hr)
    as (a & b & c & d & Ed & Ha & Hb & Hc & Hd & Hh & Hm).
  exists (mkConversion (hhmm normalized)
            (Int ((h * 60 + m + oF - oT) / 1440))), s', a, b, c, d.
  cbn [display].
  pose proof (Z.mod_pos_bound normalized 60 ltac:(lia)).
  assert (0 <= normalized / 60 <= 23).
  { split; [apply Z.div_pos; lia|].
    apply Z.lt_succ_r, Z.div_lt_upper_bound; lia. }
  repeat split; auto; lia.
Qed.

Lemma C5_display_shape_witness :
  exists r s',
    convertTime sampleIntl "9:05" "America/New_York" "Asia/Kolkata"
      initial_state = (Ok r, s') /\
    String.length (display r) = 5%nat.
Proof.
  destruct (C5_display_shape sampleIntl initial_state "9:05"
              "America/New_York" "Asia/Kolkata" 9 5 300 (-330))
    as (r & s' & a & b & c & d & E & Ed & _).
  - reflexivity.
  - reflexivity.
  - discriminate.
  - reflexivity.
  - reflexivity.
  - exists r, s'. split; [exact E|]. rewrite Ed. reflexivity.
Defined.

(** ** Memoization *)

(** C6, evaluated where it fails.  Whatever the locale primitive, the
    first call [getOffsetMinutes "constructor"] returns, so it is a
    successful call, but it stores nothing: the read of the cache finds the
    member inherited from [Object.prototype] and the function returns it at
    once.  The cache has no entry for the name afterwards, the primitive was
    not invoked, and what was returned is not a number. *)
Theorem C6_inherited_name_not_stored
    (formatToParts : string -> error + list part) :
  let out := getOffsetMinutes formatToParts "constructor" initial_state in
  fst out = Ok (Inherited "constructor") /\
  cache (snd out) !! "constructor"%string = None /\
  cache (snd out) = ∅ /\
  calls (snd out) = [].
Proof. repeat apply conj; reflexivity. Qed.

(** ** Identifiers the primitive rejects *)

(** C7, evaluated where it fails.  "constructor" is not a zone and the
    primitive rejects it, but [getOffsetMinutes] never reaches the
    primitive: the read [_tzOffsetCache["constructor"]] finds the member
    inherited from [Object.prototype], which is not [undefined], and returns
    it.  No error is raised; [convertTime] does arithmetic on it and the
    page shows "NaN:NaN" with a "-1" badge. *)
Theorem C7_inherited_name_not_rejected :
  sampleIntl "constructor" = inl RangeError /\
  getOffsetMinutes sampleIntl "constructor" initial_state
  = (Ok (Inherited "constructor"), initial_state) /\
  fst (convertTime sampleIntl "09:00" "Asia/Taipei" "constructor"
         initial_state)
  = Ok (mkConversion "NaN:NaN" NaN) /\
  fst (updateAllTimes sampleIntl
         (mkPage (Some "Asia/Taipei"%string) "constructor"
                 [mkElement "09:00" None [TextNode "09:00"]])
         initial_state)
  = (mkPage (Some "Asia/Taipei"%string) "constructor"
            [mkElement "09:00" None
               [TextNode "NaN:NaN"; Span "day-offset" "-1"]],
     None).
Proof. repeat apply conj; reflexivity. Qed.

(** ** The propagation pass *)


(** C9, as the specification states it, fails twice.  A pass in which a
    conversion raises does not replace the content of every node: with the
    zone "Mars/Olympus" selected, the pass ends at the first node and
    rewrites nothing.  And where the day offset is negative the badge the
    code appends reads "-1" with a hyphen-minus, not with the minus sign
    (U+2212) of the specification: "09:00" shown for America/New_York gets
    the badge "-1". *)
Lemma C9_pass_counterexample :
  ~ pass_as_stated sampleIntl
      (mkPage None "Mars/Olympus"
         [mkElement "09:00" None [TextNode "09:00"];
          mkElement "TBD" None [TextNode "TBD"]])
      initial_state /\
  ~ pass_as_stated sampleIntl
      (mkPage None "America/New_York"
         [mkElement "09:00" None [TextNode "09:00"]])
      initial_state.
Proof.
  split; intros H; unfold pass_as_stated in H; cbn [nodes] in H;
    apply Forall2_cons_inv_l in H
      as (el' & rest' & (r & Hr & Hp) & _ & Hn).
  - vm_compute in Hr. discriminate.
  - vm_compute in Hr. injection Hr as <-.
    vm_compute in Hn. injection Hn as <- _.
    destruct Hp as (_ & _ & badges & Hc & _ & Hneg).
    cbn [children dayOffset] in Hc, Hneg. injection Hc as <-.
    destruct Hneg as (text & Ht & _ & Hm); [discriminate|].
    injection Ht as <-. specialize (Hm (-1) eq_refl ltac:(lia)).
    discriminate.
Qed.

(** C9, amended.  A propagation pass runs to its end exactly when no
    conversion raises, and then each time-bearing node's content is replaced
    by one text node, the optional prefix followed by the converted string,
    and a badge follows exactly when the day offset is not 0: one badge,
    "+1" for a positive and "-1" (hyphen-minus) for a negative offset,
    whatever its magnitude.  A pass that ends with an error ends at the
    first node whose conversion raises, with that error: the nodes before
    it are replaced in the same way, that node and all later ones keep
    their content. *)
Theorem C9_pass_rewrites_nodes (formatToParts : string -> error + list part)
    (p : page) (s : state) :
  let fromTz := or_default (baseTimezone p) "Asia/Taipei" in
  let out := updateAllTimes formatToParts p s in
  (snd (fst out) = None <->
   Forall (fun el => exists r,
             fst (convertTime formatToParts (baseTime el) fromTz
                    (currentTimezone p) s) = Ok r) (nodes p)) /\
  (snd (fst out) = None ->
   Forall2 (rewritten formatToParts p s)
           (nodes p) (nodes (fst (fst out)))) /\
  (forall e, snd (fst out) = Some e ->
     exists pre el post pre',
       nodes p = pre ++ el :: post /\
       nodes (fst (fst out)) = pre' ++ el :: post /\
       Forall2 (rewritten formatToParts p s) pre pre' /\
       fst (convertTime formatToParts (baseTime el) fromTz
              (currentTimezone p) s) = Throw e).
Proof.
  intros fromTz out.
  destruct (updateAllTimes_view formatToParts p s) as [E _].
  fold out in E. fold fromTz in E. rewrite E. cbn [fst snd nodes].
  set (offset := resolve formatToParts (cache s)).
  assert (V : forall t,
             fst (convertTime formatToParts t fromTz (currentTimezone p) s)
             = convert_view offset t fromTz (currentTimezone p))
    by (intros t; apply convertTime_view).
  assert (W : forall l l',
             Forall2 (fun el el' =>
                        exists r,
                          convert_view offset (baseTime el) fromTz
                            (currentTimezone p) = Ok r
                          /\ el' = repaint el r) l l' ->
             Forall2 (rewritten formatToParts p s) l l').
  { intros l l' HF. eapply Forall2_impl; [exact HF|].
    intros el el' (r & Hr & ->).
    exists r. fold fromTz. rewrite V. split; [exact Hr|].
    apply painted_repaint. }
  pose proof (repaint_view_result offset fromTz (currentTimezone p)
                (nodes p)) as HR. cbn zeta in HR.
  split; [|split].
  - rewrite repaint_view_completes. apply Forall_iff. intros el.
    rewrite V. reflexivity.
  - intros Hnone. rewrite Hnone in HR. apply W, HR.
  - intros e He. rewrite He in HR.
    destruct HR as (pre & el & post & pre' & Hn & Hn' & HF & HT).
    exists pre, el, post, pre'. rewrite V. auto.
Qed.

(** ** Hours beyond the clock *)

(** C10. A two-digit hour from 24 to 99 is accepted by the pattern, and with
    two distinct zones of resolved offsets [convertTime] neither rejects the
    string nor raises: the surplus hours go through the same arithmetic and
    end up in the day count, which is at least 1 when the two offsets are
    equal.  With equal offsets, "25:30" gives "01:30" and [dayOffset = 1]. *)
Theorem C10_oversized_hour (formatToParts : string -> error + list part)
    (s : state) (h1 h2 m1 m2 : ascii) (fromTz toTz : string) (oF oT : Z) :
  is_digit h1 = true -> is_digit h2 = true ->
  is_digit m1 = true -> is_digit m2 = true ->
  24 <= 10 * digit_value h1 + digit_value h2 ->
  fromTz <> toTz ->
  resolved formatToParts s fromTz oF ->
  resolved formatToParts s toTz oT ->
  let timeStr :=
    String h1 (String h2 (String ":" (String m1 (String m2 EmptyString)))) in
  let raw :=
    (10 * digit_value h1 + digit_value h2) * 60
    + (10 * digit_value m1 + digit_value m2) + oF - oT in
  test_time timeStr = true /\
  (exists s',
      convertTime formatToParts timeStr fromTz toTz s
      = (Ok (mkConversion (hhmm (normalize raw)) (Int (raw / 1440))), s')) /\
  (oF = oT -> 1 <= raw / 1440) /\
  (timeStr = "25:30"%string -> oF = oT ->
   hhmm (normalize raw) = "01:30"%string /\ raw / 1440 = 1).
Proof.
  intros H1 H2 M1 M2 Hh Hne HF HT timeStr raw.
  assert (Ht : test_time timeStr = true).
  { unfold timeStr. cbn. rewrite H1, H2, M1, M2. reflexivity. }
  split; [exact Ht|]. split.
  { destruct (convertTime_int formatToParts s timeStr fromTz toTz
                (10 * digit_value h1 + digit_value h2)
                (10 * digit_value m1 + digit_value m2) oF oT)
      as (s' & _ & E); auto.
    - apply split_clock_long; assumption.
    - exists s'. exact E. }
  split.
  { intros ->. pose proof (digit_value_range _ M1).
    pose proof (digit_value_range _ M2).
    apply Z.div_le_lower_bound; unfold raw; lia. }
  intros E ->. unfold timeStr in E. injection E as -> -> -> ->.
  assert (raw = 1530) as -> by (unfold raw, digit_value; cbn; lia).
  split; reflexivity.
Qed.

Lemma C10_oversized_hour_witness :
  exists s',
    convertTime sampleIntl "25:30" "Asia/Taipei" "Asia/Shanghai"
      initial_state
    = (Ok (mkConversion "01:30" (Int 1)), s').
Proof.
  destruct (C10_oversized_hour sampleIntl initial_state "2" "5" "3" "0"
              "Asia/Taipei" "Asia/Shanghai" (-480) (-480))
    as (_ & [s' E] & _).
  - reflexivity.
  - reflexivity.
  - reflexivity.
  - reflexivity.
  - vm_compute. discriminate.
  - discriminate.
  - reflexivity.
  - reflexivity.
  - exists s'. exact E.
Defined.

(** * Further properties of the code *)

(** ** Offsets and the cache *)

Lemma yields_resolved (formatToParts : string -> error + list part)
    (s : state) (tz : string) (H Mi : Z) :
  (forall k, k ∈ objectPrototypeKeys -> exists e, formatToParts k = inl e) ->
  reachable formatToParts s ->
  yields formatToParts tz H Mi ->
  resolved formatToParts s tz
    (12 * 60 - ((if H =? 24 then 0 else H) * 60 + Mi)).
Proof.
  intros Hproto Hreach Hy. unfold resolved.
  pose proof (yields_compute _ _ _ _ Hy) as Hc.
  rewrite getOffsetMinutes_fst. unfold resolve, cache_get.
  destruct (cache s !! tz) as [n|] eqn:Hown.
  - rewrite (reachable_cache_sound _ _ Hreach _ _ Hown) in Hc. congruence.
  - case_bool_decide as Hk; [|rewrite Hc; reflexivity].
    destruct (Hproto _ Hk) as [e He].
    destruct Hy as (parts & _ & _ & Ef & _). congruence.
Qed.

(** X1. With the hours (0 to 24) and minutes (0 to 59) a 24-hour clock can
    show, the offset [getOffsetMinutes] returns always lies in (-720, 720],
    and it is the distance from the local time to noon up to whole days. *)
Theorem X1_offset_range (formatToParts : string -> error + list part)
    (s : state) (tz : string) (H Mi : Z) :
  (forall k, k ∈ objectPrototypeKeys -> exists e, formatToParts k = inl e) ->
  reachable formatToParts s ->
  yields formatToParts tz H Mi ->
  0 <= H <= 24 -> 0 <= Mi <= 59 ->
  exists o,
    fst (getOffsetMinutes formatToParts tz s) = Ok (Num (Int o)) /\
    -720 < o <= 720 /\
    (o - (720 - (H * 60 + Mi))) mod 1440 = 0.
Proof.
  intros Hproto Hreach Hy HH HM.
  pose proof (yields_resolved _ _ _ _ _ Hproto Hreach Hy) as Hr.
  unfold resolved in Hr. eexists. split; [exact Hr|].
  destruct (Z.eqb_spec H 24) as [->|Hne].
  - split; [lia|]. replace (12 * 60 - (0 * 60 + Mi) - (720 - (24 * 60 + Mi)))
      with (1 * 1440) by lia. apply Z_mod_mult.
  - split; [lia|]. replace (12 * 60 - (H * 60 + Mi) - (720 - (H * 60 + Mi)))
      with 0 by lia. reflexivity.
Qed.

Lemma X1_offset_range_witness :
  exists o,
    fst (getOffsetMinutes sampleIntl "Pacific/Fiji" initial_state)
    = Ok (Num (Int o)) /\ -720 < o <= 720.
Proof.
  destruct (X1_offset_range sampleIntl initial_state "Pacific/Fiji" 24 0)
    as (o & E & Hr & _).
  - exact sampleIntl_rejects_inherited_names.
  - apply rtc_refl.
  - exists [mkPart "hour" "24"; mkPart "literal" ":"; mkPart "minute" "00"],
      (mkPart "hour" "24"), (mkPart "minute" "00").
    repeat split; reflexivity.
  - lia.
  - lia.
  - exists o. split; [exact E|exact Hr].
Defined.

Lemma reachable_cache_logged (formatToParts : string -> error + list part)
    (s : state) :
  reachable formatToParts s ->
  forall tz n, cache s !! tz = Some n ->
    (tz ∉ objectPrototypeKeys) /\ (tz ∈ calls s).
Proof.
  unfold reachable, later. intros Hr. pattern s.
  eapply rtc_ind_r; [|clear s Hr|exact Hr].
  { intros tz n. cbn. rewrite lookup_empty. discriminate. }
  intros s1 s2 _ [tz0 ->] IH tz n.
  rewrite getOffsetMinutes_unfold.
  destruct (cache_get (cache s1) tz0) eqn:Hget; [apply IH|].
  destruct (compute formatToParts tz0) as [n0|e] eqn:Hc; cbn.
  - destruct (decide (tz0 = tz)) as [->|Hne].
    + intros _. apply cache_get_none in Hget. split; [tauto|].
      apply elem_of_app. right. apply list_elem_of_singleton. reflexivity.
    + rewrite lookup_insert_ne by done. intros Hl.
      destruct (IH _ _ Hl). split; [assumption|].
      apply elem_of_app. auto.
  - intros Hl. destruct (IH _ _ Hl). split; [assumption|].
    apply elem_of_app. auto.
Qed.

(** X2. In every state the page can reach, each number the cache holds is
    what the primitive and the offset formula give for its key; the key is
    never a name inherited from [Object.prototype] and the primitive was
    invoked for it. *)
Theorem X2_cache_entries_computed
    (formatToParts : string -> error + list part)
    (s : state) (tz : string) (n : number) :
  reachable formatToParts s ->
  cache s !! tz = Some n ->
  compute formatToParts tz = Ok n /\
  (tz ∉ objectPrototypeKeys) /\ (tz ∈ calls s).
Proof.
  intros Hr Hl. split.
  - eapply reachable_cache_sound; eassumption.
  - eapply reachable_cache_logged; eassumption.
Qed.

Lemma X2_cache_entries_computed_witness :
  compute sampleIntl "Asia/Kolkata" = Ok (Int (-330)).
Proof.
  apply (X2_cache_entries_computed sampleIntl
           (snd (getOffsetMinutes sampleIntl "Asia/Kolkata" initial_state))
           "Asia/Kolkata" (Int (-330))).
  - apply later_step.
  - reflexivity.
Defined.

(** X3. A failure is not remembered.  When [getOffsetMinutes tz] raises, the
    cache is left as it was and one invocation of the primitive is logged;
    asking again invokes the primitive again and raises the same error. *)
Theorem X3_failure_not_cached (formatToParts : string -> error + list part)
    (tz : string) (s s' : state) (e : error) :
  getOffsetMinutes formatToParts tz s = (Throw e, s') ->
  cache s' = cache s /\
  calls s' = calls s ++ [tz] /\
  getOffsetMinutes formatToParts tz s'
  = (Throw e, mkState (cache s) (calls s ++ [tz; tz])).
Proof.
  intros E. rewrite getOffsetMinutes_unfold in E.
  destruct (cache_get (cache s) tz) eqn:Hget; [discriminate|].
  destruct (compute formatToParts tz) as [n|e'] eqn:Hc; [discriminate|].
  injection E as <- <-. cbn. split; [reflexivity|]. split; [reflexivity|].
  rewrite getOffsetMinutes_unfold. cbn. rewrite Hget, Hc.
  rewrite <- app_assoc. reflexivity.
Qed.

Lemma X3_failure_not_cached_witness :
  getOffsetMinutes sampleIntl "Mars/Olympus"
    (mkState ∅ ["Mars/Olympus"%string])
  = (Throw RangeError,
     mkState ∅ ["Mars/Olympus"%string; "Mars/Olympus"%string]).
Proof.
  apply (X3_failure_not_cached sampleIntl "Mars/Olympus" initial_state
           (mkState ∅ ["Mars/Olympus"%string]) RangeError).
  reflexivity.
Defined.

Lemma own_entry_later (formatToParts : string -> error + list part)
    (s1 s2 : state) (k : string) (w : number) :
  later formatToParts s1 s2 ->
  cache s1 !! k = Some w -> cache s2 !! k = Some w.
Proof.
  induction 1 as [|a b c [tz ->] _ IH]; [auto|].
  intros Hk. apply IH. rewrite getOffsetMinutes_unfold.
  destruct (cache_get (cache a) tz) eqn:Hget; [exact Hk|].
  destruct (compute formatToParts tz); cbn; [|exact Hk].
  rewrite lookup_insert_ne; [exact Hk|]. intros ->.
  apply cache_get_none in Hget. destruct Hget as [Hown _]. congruence.
Qed.

(** X16. Memoization where the cache has no answer and the primitive has
    one: the call returns the computed offset, stores it as the entry of
    the zone and invokes the primitive exactly once.  From then on, whatever
    calls of [getOffsetMinutes], [convertTime] and [updateAllTimes] happen
    in between, a call for the zone returns that offset and leaves the
    cache and the log of invocations as it found them.  No call ever
    changes or removes an entry the cache holds. *)
Theorem X16_memoization (formatToParts : string -> error + list part)
    (z : string) (s : state) (n : number) :
  cache_get (cache s) z = None ->
  compute formatToParts z = Ok n ->
  let s' := mkState (<[z := n]> (cache s)) (calls s ++ [z]) in
  getOffsetMinutes formatToParts z s = (Ok (Num n), s') /\
  (forall s'', later formatToParts s' s'' ->
     getOffsetMinutes formatToParts z s'' = (Ok (Num n), s'') /\
     cache s'' !! z = Some n) /\
  (forall s1 s2 k w, later formatToParts s1 s2 ->
     cache s1 !! k = Some w -> cache s2 !! k = Some w) /\
  (forall t a b s1,
     later formatToParts s1 (snd (convertTime formatToParts t a b s1))) /\
  (forall p s1,
     later formatToParts s1 (snd (updateAllTimes formatToParts p s1))).
Proof.
  intros Hget Hc s'.
  split; [rewrite getOffsetMinutes_unfold, Hget, Hc; reflexivity|].
  split.
  { intros s'' HL.
    assert (Hown : cache s'' !! z = Some n).
    { eapply own_entry_later; [exact HL|]. apply lookup_insert_eq. }
    split; [|exact Hown].
    apply getOffsetMinutes_hit, cache_get_own, Hown. }
  split; [intros s1 s2 k w; apply own_entry_later|].
  split; [intros t a b s1; apply convertTime_view|].
  intros p s1. apply updateAllTimes_view.
Qed.

Lemma X16_memoization_witness :
  getOffsetMinutes sampleIntl "Asia/Taipei" initial_state
  = (Ok (Num (Int (-480))),
     mkState (<["Asia/Taipei"%string := Int (-480)]> ∅)
             ["Asia/Taipei"%string]).
Proof.
  apply (X16_memoization sampleIntl "Asia/Taipei" initial_state
           (Int (-480))).
  - reflexivity.
  - reflexivity.
Defined.

(** ** Conversion of clock times *)

Lemma resolved_functional (formatToParts : string -> error + list part)
    (s : state) (tz : string) (o o' : Z) :
  resolved formatToParts s tz o -> resolved formatToParts s tz o' -> o = o'.
Proof. unfold resolved. congruence. Qed.

Lemma clock_of_minutes (h m : Z) :
  0 <= h <= 23 -> 0 <= m <= 59 ->
  (h * 60 + m) / 60 = h /\ (h * 60 + m) mod 60 = m.
Proof.
  intros Hh Hm. split.
  - rewrite Z.div_add_l by lia. rewrite Z.div_small by lia. lia.
  - rewrite Z.add_comm, Z_mod_plus_full. apply Z.mod_small. lia.
Qed.

(** On a clock time the pass-through and the conversion obey one formula. *)
Lemma convertTime_clock (formatToParts : string -> error + list part)
    (s : state) (t A B : string) (h m oA oB : Z) :
  clock t = Some (h, m) -> h <= 23 -> m <= 59 ->
  resolved formatToParts s A oA ->
  resolved formatToParts s B oB ->
  exists r s',
    later formatToParts s s' /\
    convertTime formatToParts t A B s = (Ok r, s') /\
    dayOffset r = Int ((h * 60 + m + oA - oB) / 1440) /\
    clock (display r)
    = Some (((h * 60 + m + oA - oB) mod 1440) / 60,
            ((h * 60 + m + oA - oB) mod 1440) mod 60).
Proof.
  intros Hc Hh Hm HA HB.
  destruct (clock_inv t h m Hc) as (Ht & Hs & Hh0 & Hm0).
  destruct (decide (A = B)) as [->|Hne].
  - rewrite (resolved_functional _ _ _ _ _ HA HB).
    exists (mkConversion t (Int 0)), s. split; [apply rtc_refl|].
    rewrite convertTime_guard by (rewrite bool_decide_eq_true_2; auto).
    split; [reflexivity|]. cbn [display dayOffset].
    replace (h * 60 + m + oB - oB) with (h * 60 + m) by lia.
    rewrite Z.div_small, Z.mod_small by lia.
    destruct (clock_of_minutes h m) as [-> ->]; [lia|lia|]. auto.
  - destruct (convertTime_int formatToParts s t A B h m oA oB)
      as (s' & HL & E); auto.
    eexists _, s'. split; [exact HL|]. split; [exact E|].
    cbn [display dayOffset]. split; [reflexivity|].
    pose proof (normalize_range (h * 60 + m + oA - oB)) as Hr.
    destruct (hhmm_clock _ Hr) as (_ & _ & ->).
    rewrite normalize_mod. reflexivity.
Qed.

(** X4. For a clock time (hour at most 23, minute at most 59) and two
    distinct zones whose offsets lie in (-720, 720], the day offset
    [convertTime] returns is -1, 0 or 1, so the single "+1" or "-1" badge of
    [updateAllTimes] states it exactly. *)
Theorem X4_day_offset_unit (formatToParts : string -> error + list part)
    (s : state) (t A B : string) (h m oA oB : Z) :
  clock t = Some (h, m) -> h <= 23 -> m <= 59 ->
  A <> B ->
  resolved formatToParts s A oA -> -720 < oA <= 720 ->
  resolved formatToParts s B oB -> -720 < oB <= 720 ->
  exists r s' d,
    convertTime formatToParts t A B s = (Ok r, s') /\
    dayOffset r = Int d /\ -1 <= d <= 1 /\
    badge (dayOffset r)
    = (if d =? 0 then []
       else [Span "day-offset" (if d =? 1 then "+1" else "-1")]).
Proof.
  intros Hc Hh Hm Hne HA HrA HB HrB.
  destruct (clock_inv t h m Hc) as (Ht & Hs & Hh0 & Hm0).
  destruct (convertTime_int formatToParts s t A B h m oA oB)
    as (s' & _ & E); auto.
  set (raw := h * 60 + m + oA - oB) in *.
  assert (Hd : -1 <= raw / 1440 <= 1).
  { split.
    - apply Z.div_le_lower_bound; unfold raw; lia.
    - apply Z.lt_succ_r, Z.div_lt_upper_bound; unfold raw; lia. }
  eexists _, s', (raw / 1440). split; [exact E|].
  cbn [dayOffset]. split; [reflexivity|]. split; [exact Hd|].
  unfold badge, strict_ne, strict_eq, gt.
  destruct (Z.eqb_spec (raw / 1440) 0) as [->|Hz]; [reflexivity|]. cbn.
  destruct (Z.eqb_spec (raw / 1440) 1) as [->|H1]; [reflexivity|].
  destruct (Z.ltb_spec 0 (raw / 1440)); [lia|reflexivity].
Qed.

Lemma X4_day_offset_unit_witness :
  exists r s',
    convertTime sampleIntl "09:00" "Asia/Taipei" "America/New_York"
      initial_state = (Ok r, s') /\
    badge (dayOffset r) = [Span "day-offset" "-1"].
Proof.
  destruct (X4_day_offset_unit sampleIntl initial_state "09:00"
              "Asia/Taipei" "America/New_York" 9 0 (-480) 300)
    as (r & s' & d & E & Hd & _ & Hb).
  - reflexivity.
  - lia.
  - lia.
  - discriminate.
  - reflexivity.
  - lia.
  - reflexivity.
  - lia.
  - exists r, s'. split; [exact E|]. rewrite Hb.
    vm_compute in E. injection E as <- _.
    cbn in Hd. injection Hd as <-. reflexivity.
Defined.

(** X5. Conversions compose.  For a clock time and three zones with
    resolved offsets, converting from [A] to [B] and the displayed string
    from [B] to [C] shows the same hour and minute as converting from [A] to
    [C] directly, and the two day offsets add up to the direct one.  Zones
    may coincide. *)
Theorem X5_conversions_compose (formatToParts : string -> error + list part)
    (s : state) (t A B C : string) (h m oA oB oC : Z) :
  clock t = Some (h, m) -> h <= 23 -> m <= 59 ->
  resolved formatToParts s A oA ->
  resolved formatToParts s B oB ->
  resolved formatToParts s C oC ->
  exists r1 s1 r2 s2 r3 s3,
    convertTime formatToParts t A B s = (Ok r1, s1) /\
    convertTime formatToParts (display r1) B C s1 = (Ok r2, s2) /\
    convertTime formatToParts t A C s = (Ok r3, s3) /\
    clock (display r2) = clock (display r3) /\
    add (dayOffset r1) (dayOffset r2) = dayOffset r3.
Proof.
  intros Hc Hh Hm HA HB HC.
  destruct (convertTime_clock formatToParts s t A B h m oA oB)
    as (r1 & s1 & L1 & E1 & D1 & C1); auto.
  destruct (convertTime_clock formatToParts s t A C h m oA oC)
    as (r3 & s3 & _ & E3 & D3 & C3); auto.
  set (raw1 := h * 60 + m + oA - oB) in *.
  set (raw3 := h * 60 + m + oA - oC) in *.
  pose proof (Z.mod_pos_bound raw1 1440 ltac:(lia)) as Hn1.
  pose proof (Z.div_mod raw1 1440 ltac:(lia)) as Hd1.
  pose proof (Z.div_mod (raw1 mod 1440) 60 ltac:(lia)) as Hq1.
  pose proof (Z.mod_pos_bound (raw1 mod 1440) 60 ltac:(lia)) as Hm1.
  assert (Hh1 : 0 <= raw1 mod 1440 / 60 <= 23).
  { split; [apply Z.div_pos; lia|].
    apply Z.lt_succ_r, Z.div_lt_upper_bound; lia. }
  destruct (convertTime_clock formatToParts s1 (display r1) B C
              (raw1 mod 1440 / 60) ((raw1 mod 1440) mod 60) oB oC)
    as (r2 & s2 & _ & E2 & D2 & C2); eauto using resolved_later; try lia.
  set (raw2 := raw1 mod 1440 / 60 * 60 + (raw1 mod 1440) mod 60 + oB - oC)
    in *.
  assert (R2 : raw2 = raw3 + (- (raw1 / 1440)) * 1440).
  { unfold raw2, raw3, raw1 in *. lia. }
  exists r1, s1, r2, s2, r3, s3. repeat split; auto.
  - rewrite C2, C3, R2, Z_mod_plus_full. reflexivity.
  - rewrite D1, D2, D3, R2, Z.div_add by lia. cbn. f_equal. lia.
Qed.

Lemma X5_conversions_compose_witness :
  exists r1 s1 r2 s2,
    convertTime sampleIntl "23:30" "America/New_York" "Asia/Taipei"
      initial_state = (Ok r1, s1) /\
    convertTime sampleIntl (display r1) "Asia/Taipei" "Asia/Kolkata" s1
    = (Ok r2, s2) /\
    add (dayOffset r1) (dayOffset r2) = Int 1.
Proof.
  destruct (X5_conversions_compose sampleIntl initial_state "23:30"
              "America/New_York" "Asia/Taipei" "Asia/Kolkata"
              23 30 300 (-480) (-330))
    as (r1 & s1 & r2 & s2 & r3 & s3 & E1 & E2 & E3 & _ & Hd).
  - reflexivity.
  - lia.
  - lia.
  - reflexivity.
  - reflexivity.
  - reflexivity.
  - exists r1, s1, r2, s2. split; [exact E1|]. split; [exact E2|].
    rewrite Hd. vm_compute in E3. injection E3 as <- _. reflexivity.
Defined.

(** ** The propagation pass: what it keeps, what it costs, how it fails *)

Lemma repaint_view_attributes (offset : string -> result value)
    (fromTz toTz : string) (els : list element) :
  map attributes (fst (repaint_view offset fromTz toTz els))
  = map attributes els.
Proof.
  induction els as [|el rest IH]; cbn; [reflexivity|].
  destruct (convert_view offset (baseTime el) fromTz toTz) as [r|e].
  - destruct (repaint_view offset fromTz toTz rest) as [rest' err].
    cbn in IH |- *. rewrite IH. reflexivity.
  - reflexivity.
Qed.

(** X6. A propagation pass never adds or removes a time-bearing node and
    never changes a node's base time or prefix, whether it runs to its end
    or stops on an error: only the children are rewritten. *)
Theorem X6_pass_keeps_attributes
    (formatToParts : string -> error + list part) (p : page) (s : state) :
  let p' := fst (fst (updateAllTimes formatToParts p s)) in
  map attributes (nodes p') = map attributes (nodes p) /\
  length (nodes p') = length (nodes p).
Proof.
  intros p'. assert (E : map attributes (nodes p') = map attributes (nodes p)).
  { unfold p'. destruct (updateAllTimes_view formatToParts p s) as [E _].
    rewrite E. cbn [fst nodes]. apply repaint_view_attributes. }
  split; [exact E|].
  rewrite <- (length_map attributes (nodes p')), E. apply length_map.
Qed.

Lemma getOffsetMinutes_effect (formatToParts : string -> error + list part)
    (tz : string) (s : state) :
  (length (calls (snd (getOffsetMinutes formatToParts tz s)))
   <= length (calls s) + 1)%nat /\
  forall v, fst (getOffsetMinutes formatToParts tz s) = Ok v ->
    cache_get (cache (snd (getOffsetMinutes formatToParts tz s))) tz
    = Some v.
Proof.
  rewrite getOffsetMinutes_unfold.
  destruct (cache_get (cache s) tz) as [w|] eqn:Hget.
  { cbn. split; [lia|]. congruence. }
  destruct (compute formatToParts tz) as [n|e]; cbn;
    rewrite length_app; cbn; (split; [lia|]).
  - intros v [= <-]. apply cache_get_insert_same.
  - discriminate.
Qed.

Lemma convertTime_effect (formatToParts : string -> error + list part)
    (t fromTz toTz : string) (s : state) :
  let out := convertTime formatToParts t fromTz toTz s in
  (exists r, out = (Ok r, s)) \/
  ((length (calls (snd out)) <= length (calls s) + 2)%nat /\
   ((exists e, fst out = Throw e) \/
    (is_Some (cache_get (cache (snd out)) fromTz) /\
     is_Some (cache_get (cache (snd out)) toTz)))).
Proof.
  unfold convertTime.
  destruct (bool_decide (fromTz = toTz) || negb (test_time t)).
  { left. eexists. reflexivity. }
  right. destruct (split_clock t) as [h m]. unfold bind.
  destruct (getOffsetMinutes_effect formatToParts fromTz s) as [LF SF].
  destruct (getOffsetMinutes formatToParts fromTz s) as [[oF|e] s1];
    cbn [fst snd] in LF, SF |- *.
  2:{ split; [lia|]. left. eauto. }
  destruct (getOffsetMinutes_effect formatToParts toTz s1) as [LT ST].
  pose proof (cache_get_step formatToParts toTz s1 fromTz oF
                (SF _ eq_refl)) as KF.
  destruct (getOffsetMinutes formatToParts toTz s1) as [[oT|e] s2];
    cbn [fst snd] in LT, ST, KF |- *.
  2:{ split; [lia|]. left. eauto. }
  unfold ret. cbn [fst snd].
  split; [clear - LF LT; lia|]. right. rewrite KF, (ST _ eq_refl). eauto.
Qed.

Lemma convertTime_cached (formatToParts : string -> error + list part)
    (t fromTz toTz : string) (s : state) :
  is_Some (cache_get (cache s) fromTz) ->
  is_Some (cache_get (cache s) toTz) ->
  exists r, convertTime formatToParts t fromTz toTz s = (Ok r, s).
Proof.
  intros [vF HF] [vT HT]. unfold convertTime.
  destruct (bool_decide (fromTz = toTz) || negb (test_time t)).
  { eexists. reflexivity. }
  destruct (split_clock t) as [h m]. unfold bind.
  rewrite (getOffsetMinutes_hit _ _ _ _ HF).
  rewrite (getOffsetMinutes_hit _ _ _ _ HT). eexists. reflexivity.
Qed.

Lemma forEach_repaint_cached (formatToParts : string -> error + list part)
    (fromTz toTz : string) (els : list element) (s : state) :
  is_Some (cache_get (cache s) fromTz) ->
  is_Some (cache_get (cache s) toTz) ->
  snd (forEach_repaint formatToParts fromTz toTz els s) = s /\
  snd (fst (forEach_repaint formatToParts fromTz toTz els s)) = None.
Proof.
  intros HF HT. induction els as [|el rest IH]; cbn; [auto|].
  destruct (convertTime_cached formatToParts (baseTime el) fromTz toTz s
              HF HT) as [r ->].
  destruct (forEach_repaint formatToParts fromTz toTz rest s)
    as [[rest' err] s']. exact IH.
Qed.

Lemma forEach_repaint_calls (formatToParts : string -> error + list part)
    (fromTz toTz : string) (els : list element) (s : state) :
  (length (calls (snd (forEach_repaint formatToParts fromTz toTz els s)))
   <= length (calls s) + 2)%nat.
Proof.
  revert s. induction els as [|el rest IH]; intros s; cbn; [lia|].
  destruct (convertTime_effect formatToParts (baseTime el) fromTz toTz s)
    as [[r E]|[HL Hc]]; cbn zeta in *.
  - rewrite E. specialize (IH s).
    destruct (forEach_repaint formatToParts fromTz toTz rest s)
      as [[rest' err] s']. exact IH.
  - destruct (convertTime formatToParts (baseTime el) fromTz toTz s)
      as [[r|e] s1]; cbn [fst snd] in *; [|exact HL].
    destruct Hc as [[e He]|[HF HT]]; [discriminate|].
    destruct (forEach_repaint_cached formatToParts fromTz toTz rest s1
                HF HT) as [Hs _].
    destruct (forEach_repaint formatToParts fromTz toTz rest s1)
      as [[rest' err] s']. cbn [snd] in *. subst s'. exact HL.
Qed.

(** X7. A propagation pass invokes the locale primitive at most twice,
    however many nodes it rewrites and however it ends.  When the cache
    already answers for the base zone and for the selected zone, the pass
    invokes nothing, leaves the cache as it is, and cannot fail. *)
Theorem X7_pass_primitive_calls
    (formatToParts : string -> error + list part) (p : page) (s : state) :
  let fromTz := or_default (baseTimezone p) "Asia/Taipei" in
  let out := updateAllTimes formatToParts p s in
  (length (calls (snd out)) <= length (calls s) + 2)%nat /\
  (is_Some (cache_get (cache s) fromTz) ->
   is_Some (cache_get (cache s) (currentTimezone p)) ->
   snd out = s /\ snd (fst out) = None).
Proof.
  intros fromTz out. unfold out, updateAllTimes. fold fromTz.
  pose proof (forEach_repaint_calls formatToParts fromTz
                (currentTimezone p) (nodes p) s) as HL.
  pose proof (forEach_repaint_cached formatToParts fromTz
                (currentTimezone p) (nodes p) s) as HC.
  destruct (forEach_repaint formatToParts fromTz (currentTimezone p)
              (nodes p) s) as [[els err] s'].
  cbn [fst snd] in *. auto.
Qed.

Lemma repaint_as_is (el : element) :
  repaint el (mkConversion (baseTime el) (Int 0)) = shown_as_is el.
Proof. reflexivity. Qed.

Lemma repaint_view_as_is (offset : string -> result value)
    (fromTz toTz : string) (pre rest : list element) :
  Forall (fun x => test_time (baseTime x) = false) pre ->
  repaint_view offset fromTz toTz (pre ++ rest)
  = (map shown_as_is pre ++ fst (repaint_view offset fromTz toTz rest),
     snd (repaint_view offset fromTz toTz rest)).
Proof.
  induction 1 as [|x pre Hx _ IH]; cbn.
  { destruct (repaint_view offset fromTz toTz rest). reflexivity. }
  unfold convert_view at 1. rewrite Hx, orb_true_r, IH. reflexivity.
Qed.

(** X8. When the selected zone is one the primitive rejects (and the cache
    has no answer for it) while the base zone resolves, the pass stops at
    the first node whose base time is a time: the nodes before it, which
    hold other text, are shown as they are, that node and all later ones
    keep their previous content, and the error of the primitive is what the
    pass ends with. *)
Theorem X8_pass_stops_at_rejected_zone
    (formatToParts : string -> error + list part) (p : page) (s : state)
    (pre post : list element) (el : element) (v : value) (e : error) :
  let fromTz := or_default (baseTimezone p) "Asia/Taipei" in
  nodes p = pre ++ el :: post ->
  Forall (fun x => test_time (baseTime x) = false) pre ->
  test_time (baseTime el) = true ->
  fromTz <> currentTimezone p ->
  fst (getOffsetMinutes formatToParts fromTz s) = Ok v ->
  cache_get (cache s) (currentTimezone p) = None ->
  formatToParts (currentTimezone p) = inl e ->
  fst (updateAllTimes formatToParts p s)
  = (mkPage (baseTimezone p) (currentTimezone p)
            (map shown_as_is pre ++ el :: post),
     Some e).
Proof.
  intros fromTz Hn Hpre Hel Hne HF Hget He.
  destruct (updateAllTimes_view formatToParts p s) as [E _].
  rewrite E. cbn [fst]. fold fromTz. rewrite Hn.
  rewrite repaint_view_as_is by exact Hpre. cbn [repaint_view].
  assert (Hc : convert_view (resolve formatToParts (cache s)) (baseTime el)
                 fromTz (currentTimezone p) = Throw e).
  { unfold convert_view. rewrite bool_decide_eq_false_2, Hel by exact Hne.
    cbn. destruct (split_clock (baseTime el)) as [h m].
    rewrite <- getOffsetMinutes_fst, HF.
    unfold resolve, compute. rewrite Hget, He. reflexivity. }
  rewrite Hc. reflexivity.
Qed.

Lemma X8_pass_stops_at_rejected_zone_witness :
  fst (updateAllTimes sampleIntl
         (mkPage None "Mars/Olympus"
            [mkElement "TBD" None []; mkElement "09:00" None [TextNode "x"];
             mkElement "10:00" None [TextNode "y"]])
         initial_state)
  = (mkPage None "Mars/Olympus"
       [mkElement "TBD" None [TextNode "TBD"];
        mkElement "09:00" None [TextNode "x"];
        mkElement "10:00" None [TextNode "y"]],
     Some RangeError).
Proof.
  apply (X8_pass_stops_at_rejected_zone sampleIntl
           (mkPage None "Mars/Olympus"
              [mkElement "TBD" None []; mkElement "09:00" None [TextNode "x"];
               mkElement "10:00" None [TextNode "y"]])
           initial_state [mkElement "TBD" None []]
           [mkElement "10:00" None [TextNode "y"]]
           (mkElement "09:00" None [TextNode "x"])
           (Num (Int (-480))) RangeError).
  - reflexivity.
  - repeat constructor.
  - reflexivity.
  - discriminate.
  - reflexivity.
  - reflexivity.
  - reflexivity.
Defined.

(** ** The zone selector and the day columns *)

Lemma append_nil_r (s : string) : s +:+ EmptyString = s.
Proof.
  induction s as [|a r IH]; [reflexivity|].
  change (String a (r +:+ EmptyString) = String a r). rewrite IH. reflexivity.
Qed.

Lemma append_assoc (a b c : string) : (a +:+ b) +:+ c = a +:+ (b +:+ c).
Proof.
  induction a as [|x r IH]; [reflexivity|].
  change (String x ((r +:+ b) +:+ c) = String x (r +:+ (b +:+ c))).
  rewrite IH. reflexivity.
Qed.

Lemma forEach_repaint_same_zone
    (formatToParts : string -> error + list part)
    (z : string) (els : list element) (s : state) :
  forEach_repaint formatToParts z z els s = (map shown_as_is els, None, s).
Proof.
  induction els as [|el rest IH]; cbn; [reflexivity|].
  rewrite convertTime_guard by (rewrite bool_decide_eq_true_2; auto).
  rewrite IH. reflexivity.
Qed.

Lemma textContent_shown_as_is (el : element) :
  textContent (shown_as_is el)
  = or_default (notePrefix el) "" +:+ baseTime el.
Proof. unfold textContent. cbn. apply append_nil_r. Qed.

Lemma textContent_set (s : string) :
  fold_right (fun c acc => child_text c +:+ acc) EmptyString
    (set_textContent s) = s.
Proof. destruct s; cbn; [reflexivity|]. rewrite append_nil_r. reflexivity. Qed.

Lemma or_default_note (note d : string) :
  or_default (Some (note +:+ nbsp)) d = note +:+ nbsp.
Proof. destruct note; reflexivity. Qed.

Lemma textContent_built (days : list (option (list event))) :
  Forall (fun el => textContent el
                    = or_default (notePrefix el) "" +:+ baseTime el)
         (flat_map buildDayCol days).
Proof.
  apply Forall_flat_map, Forall_forall. intros events _.
  unfold buildDayCol. apply Forall_flat_map, Forall_forall. intros ev _.
  unfold eventTimeNodes. constructor.
  { unfold textContent. cbn. apply textContent_set. }
  destruct (truthy (ev_note ev) && truthy (ev_noteTime ev)); [|constructor].
  constructor; [|constructor]. unfold textContent.
  cbn [children notePrefix baseTime].
  rewrite textContent_set, or_default_note, append_assoc. reflexivity.
Qed.

(** X9. Choosing the option whose identifier is the base zone puts back the
    text the day columns were rendered with: every node built by
    [buildDayCol] reads as it did after rendering, without a badge,
    whatever zone was shown before, and any other time-bearing node shows
    its prefix and base time.  The pass behind it cannot fail and touches
    neither the cache nor the primitive. *)
Theorem X9_select_base_zone_restores
    (formatToParts : string -> error + list part)
    (i : nat) (tz : zoneEntry) (w : selector) (p : page) (s : state)
    (other grid : list element) (days : list (option (list event))) :
  zone_id tz = or_default (baseTimezone p) "Asia/Taipei" ->
  nodes p = other ++ grid ->
  map attributes grid = map attributes (flat_map buildDayCol days) ->
  let out := clickOption formatToParts i tz w p s in
  snd (fst out) = None /\
  snd out = s /\
  nodes (snd (fst (fst out)))
  = map shown_as_is other ++ map shown_as_is grid /\
  map textContent (map shown_as_is grid)
  = map textContent (flat_map buildDayCol days).
Proof.
  intros Hid Hn Hattr out. unfold out, clickOption, updateAllTimes.
  cbn [baseTimezone currentTimezone nodes]. rewrite Hid.
  rewrite forEach_repaint_same_zone. cbn [fst snd nodes].
  rewrite Hn, map_app. repeat split; try reflexivity.
  rewrite map_map.
  transitivity
    (map (fun a : string * option string =>
            or_default (snd a) "" +:+ fst a) (map attributes grid)).
  { rewrite map_map. apply map_ext. intros el.
    apply textContent_shown_as_is. }
  rewrite Hattr, map_map. apply map_ext_Forall.
  eapply Forall_impl; [apply textContent_built|].
  intros el H. cbn. symmetry. exact H.
Qed.

Lemma X9_select_base_zone_restores_witness :
  let built :=
    flat_map buildDayCol
      [Some [mkEvent "21:00" (Some "doors"%string) (Some "20:30"%string)]] in
  let daily := mkElement "12:00" None [TextNode "12:00"] in
  let shown :=
    fst (fst (updateAllTimes sampleIntl
                (mkPage None "America/New_York" (daily :: built))
                initial_state)) in
  map textContent
    (nodes (snd (fst (fst
       (clickOption sampleIntl 0 (mkZone "Asia/Taipei" "Taipei")
          (mkSelector [false; true] "New York" true) shown
          initial_state)))))
  = map textContent (daily :: built).
Proof.
  intros built daily shown.
  destruct (X9_select_base_zone_restores sampleIntl 0
              (mkZone "Asia/Taipei" "Taipei")
              (mkSelector [false; true] "New York" true) shown initial_state
              (firstn 1 (nodes shown)) (skipn 1 (nodes shown))
              [Some [mkEvent "21:00" (Some "doors"%string)
                       (Some "20:30"%string)]])
    as (_ & _ & E & _).
  - reflexivity.
  - reflexivity.
  - reflexivity.
  - rewrite E. reflexivity.
Defined.

(** X10. After a click on an option, that option and no other carries the
    selection, whatever was selected before; the button shows its label,
    the dropdown is closed and [currentTimezone] is its identifier.  This
    holds also when the pass that follows ends with an error. *)
Theorem X10_click_selects_one
    (formatToParts : string -> error + list part)
    (i : nat) (tz : zoneEntry) (w : selector) (p : page) (s : state) :
  (i < length (selectedFlags w))%nat ->
  let out := clickOption formatToParts i tz w p s in
  let w' := fst (fst (fst out)) in
  let p' := snd (fst (fst out)) in
  (forall j, selectedFlags w' !! j = Some true <-> j = i) /\
  length (selectedFlags w') = length (selectedFlags w) /\
  buttonLabel w' = zone_label tz /\
  isOpen w' = false /\
  currentTimezone p' = zone_id tz /\
  baseTimezone p' = baseTimezone p.
Proof.
  intros Hi out w' p'. unfold w', p', out, clickOption, updateAllTimes.
  cbn [baseTimezone currentTimezone nodes].
  destruct (forEach_repaint formatToParts _ (zone_id tz) (nodes p) s)
    as [[els err] s'].
  cbn [fst snd selectedFlags buttonLabel isOpen currentTimezone
       baseTimezone].
  split.
  { intros j. destruct (decide (j = i)) as [->|Hne].
    - rewrite list_lookup_insert_eq by (rewrite length_map; exact Hi).
      tauto.
    - rewrite list_lookup_insert_ne by congruence.
      rewrite list_lookup_fmap. split; [|congruence].
      destruct (selectedFlags w !! j); cbn; congruence. }
  rewrite length_insert, length_map. auto.
Qed.

Lemma X10_click_selects_one_witness :
  selectedFlags
    (fst (fst (fst (clickOption sampleIntl 2 (mkZone "UTC" "UTC")
                      (mkSelector [true; true; false] "Taipei" true)
                      (mkPage None "Asia/Taipei" []) initial_state))))
  = [false; false; true].
Proof.
  destruct (X10_click_selects_one sampleIntl 2 (mkZone "UTC" "UTC")
              (mkSelector [true; true; false] "Taipei" true)
              (mkPage None "Asia/Taipei" []) initial_state) as [_ _].
  - cbn. lia.
  - reflexivity.
Defined.

(** ** Escaping *)

Lemma append_nil_l (s : string) : EmptyString +:+ s = s.
Proof. reflexivity. Qed.

Lemma append_cons (a : ascii) (r s : string) :
  String a r +:+ s = String a (r +:+ s).
Proof. reflexivity. Qed.

Ltac push_append H := rewrite ?append_cons, ?append_nil_l in H.

Lemma replace_all_app (c : ascii) (b x y : string) :
  replace_all c b (x +:+ y) = replace_all c b x +:+ replace_all c b y.
Proof.
  induction x as [|a r IH]; [reflexivity|].
  change (String a r +:+ y) with (String a (r +:+ y)). cbn [replace_all].
  rewrite IH. destruct (Ascii.eqb a c); [|reflexivity].
  rewrite append_assoc. reflexivity.
Qed.

Lemma replace_all_cons (c : ascii) (b : string) (a : ascii) (r : string) :
  replace_all c b (String a r)
  = replace_all c b (String a EmptyString) +:+ replace_all c b r.
Proof. apply (replace_all_app c b (String a EmptyString) r). Qed.

(** The four passes amount to one pass that rewrites each character. *)
Lemma escHtml_esc_string (s : string) : escHtml (Some s) = esc_string s.
Proof.
  unfold escHtml. induction s as [|a r IH]; [reflexivity|].
  rewrite (replace_all_cons "&"), !replace_all_app, IH.
  cbn [esc_string]. f_equal. unfold esc_char.
  destruct (Ascii.eqb_spec a "&") as [->|H1]; [reflexivity|].
  cbn [replace_all]. rewrite (proj2 (Ascii.eqb_neq a "&") H1).
  cbn [replace_all].
  destruct (Ascii.eqb_spec a "<") as [->|H2]; [reflexivity|].
  cbn [replace_all].
  destruct (Ascii.eqb_spec a ">") as [->|H3]; [reflexivity|].
  cbn [replace_all].
  destruct (Ascii.eqb_spec a quote_char) as [->|H4]; reflexivity.
Qed.

Lemma occurs_app (c : ascii) (x y : string) :
  occurs c (x +:+ y) = occurs c x || occurs c y.
Proof.
  induction x as [|a r IH]; [reflexivity|].
  change (String a r +:+ y) with (String a (r +:+ y)). cbn [occurs].
  rewrite IH, orb_assoc. reflexivity.
Qed.

Lemma esc_char_clean (c a : ascii) :
  c = "<"%char \/ c = ">"%char \/ c = quote_char ->
  occurs c (esc_char a) = false.
Proof.
  intros Hc. unfold esc_char.
  destruct (Ascii.eqb_spec a "&") as [->|H1];
    [destruct Hc as [->|[->| ->]]; reflexivity|].
  destruct (Ascii.eqb_spec a "<") as [->|H2];
    [destruct Hc as [->|[->| ->]]; reflexivity|].
  destruct (Ascii.eqb_spec a ">") as [->|H3];
    [destruct Hc as [->|[->| ->]]; reflexivity|].
  destruct (Ascii.eqb_spec a quote_char) as [->|H4];
    [destruct Hc as [->|[->| ->]]; reflexivity|].
  cbn. rewrite orb_false_r. apply Ascii.eqb_neq.
  destruct Hc as [->|[->| ->]]; assumption.
Qed.

Lemma esc_string_clean (c : ascii) (s : string) :
  c = "<"%char \/ c = ">"%char \/ c = quote_char ->
  occurs c (esc_string s) = false.
Proof.
  intros Hc. induction s as [|a r IH]; [reflexivity|].
  cbn [esc_string]. rewrite occurs_app, IH, esc_char_clean by exact Hc.
  reflexivity.
Qed.

Lemma esc_string_ampersand (s pre post : string) :
  esc_string s = pre +:+ String "&" post -> completes_entity post = true.
Proof.
  revert pre. induction s as [|a r IH]; intros pre E.
  { destruct pre; discriminate. }
  cbn [esc_string] in E. unfold esc_char in E.
  assert (step : forall x : ascii,
             x <> "&"%char -> forall (w p' : string),
             String x w = p' +:+ String "&" post ->
             exists p'', p' = String x p'' /\ w = p'' +:+ String "&" post).
  { intros x Hx w [|y p''] Ew; push_append Ew; [congruence|].
    injection Ew as <- ->. eauto. }
  assert (entity : forall ent : string,
             String "&" (ent +:+ esc_string r) = pre +:+ String "&" post ->
             (post = ent +:+ esc_string r) \/
             (exists p', ent +:+ esc_string r = p' +:+ String "&" post)).
  { intros ent Ee. destruct pre as [|y pre]; push_append Ee.
    - left. congruence.
    - right. injection Ee as <- Ee. eauto. }
  destruct (Ascii.eqb_spec a "&") as [->|H1].
  { apply (entity "amp;"%string) in E as [->|[p' E]];
      [rewrite ?append_cons, ?append_nil_l; reflexivity|].
    push_append E.
    do 4 (apply step in E as (? & -> & E); [|discriminate]).
    eapply IH, E. }
  destruct (Ascii.eqb_spec a "<") as [->|H2].
  { apply (entity "lt;"%string) in E as [->|[p' E]];
      [rewrite ?append_cons, ?append_nil_l; reflexivity|].
    push_append E.
    do 3 (apply step in E as (? & -> & E); [|discriminate]).
    eapply IH, E. }
  destruct (Ascii.eqb_spec a ">") as [->|H3].
  { apply (entity "gt;"%string) in E as [->|[p' E]];
      [rewrite ?append_cons, ?append_nil_l; reflexivity|].
    push_append E.
    do 3 (apply step in E as (? & -> & E); [|discriminate]).
    eapply IH, E. }
  destruct (Ascii.eqb_spec a quote_char) as [->|H4].
  { apply (entity "quot;"%string) in E as [->|[p' E]];
      [rewrite ?append_cons, ?append_nil_l; reflexivity|].
    push_append E.
    do 5 (apply step in E as (? & -> & E); [|discriminate]).
    eapply IH, E. }
  push_append E. apply step in E as (p'' & -> & E); [|exact H1].
  eapply IH, E.
Qed.

(** X11. What [escHtml] returns never contains [<], [>] or a double quote,
    and every ampersand in it begins one of the four entities it writes, so
    the text can be placed in element content or in a double-quoted
    attribute value without ending either.  An absent value becomes the
    empty string. *)
Theorem X11_escHtml_output_is_inert (str : option string) :
  occurs "<" (escHtml str) = false /\
  occurs ">" (escHtml str) = false /\
  occurs quote_char (escHtml str) = false /\
  (forall pre post, escHtml str = pre +:+ String "&" post ->
     completes_entity post = true) /\
  escHtml None = EmptyString.
Proof.
  destruct str as [s|].
  - rewrite escHtml_esc_string.
    repeat split; try (apply esc_string_clean; auto).
    intros pre post. apply esc_string_ampersand.
  - repeat split. intros [|a pre] post; discriminate.
Qed.

Lemma esc_char_prefix_inj (a1 a2 : ascii) (x y : string) :
  esc_char a1 +:+ x = esc_char a2 +:+ y -> a1 = a2 /\ x = y.
Proof.
  unfold esc_char.
  destruct (Ascii.eqb_spec a1 "&") as [->|A1];
    [|destruct (Ascii.eqb_spec a1 "<") as [->|A2];
      [|destruct (Ascii.eqb_spec a1 ">") as [->|A3];
        [|destruct (Ascii.eqb_spec a1 quote_char) as [->|A4]]]];
  (destruct (Ascii.eqb_spec a2 "&") as [->|B1];
    [|destruct (Ascii.eqb_spec a2 "<") as [->|B2];
      [|destruct (Ascii.eqb_spec a2 ">") as [->|B3];
        [|destruct (Ascii.eqb_spec a2 quote_char) as [->|B4]]]]);
  intros E; push_append E; split; congruence.
Qed.

Lemma esc_string_inj (s1 s2 : string) :
  esc_string s1 = esc_string s2 -> s1 = s2.
Proof.
  revert s2. induction s1 as [|a1 r1 IH]; intros [|a2 r2] E.
  - reflexivity.
  - cbn [esc_string] in E. unfold esc_char in E.
    repeat destruct (Ascii.eqb _ _) in E; discriminate.
  - cbn [esc_string] in E. unfold esc_char in E.
    repeat destruct (Ascii.eqb _ _) in E; discriminate.
  - cbn [esc_string] in E. apply esc_char_prefix_inj in E as [-> E].
    f_equal. apply IH, E.
Qed.

(** X12. [escHtml] loses nothing: two different strings never get the same
    escaped text, so the original can always be told from what was
    written. *)
Theorem X12_escHtml_injective (s1 s2 : string) :
  escHtml (Some s1) = escHtml (Some s2) -> s1 = s2.
Proof. rewrite !escHtml_esc_string. apply esc_string_inj. Qed.

Lemma X12_escHtml_injective_witness :
  "a<b"%string = "a<b"%string.
Proof.
  apply (X12_escHtml_injective "a<b" "a<b"). reflexivity.
Defined.

Lemma length_append (x y : string) :
  String.length (x +:+ y) = (String.length x + String.length y)%nat.
Proof.
  induction x as [|a r IH]; [reflexivity|].
  rewrite append_cons. cbn [String.length]. rewrite IH. reflexivity.
Qed.

Lemma esc_char_plain (a : ascii) :
  is_special a = false -> esc_char a = String a EmptyString.
Proof.
  unfold is_special, esc_char. intros H.
  repeat (apply orb_false_elim in H as [H ?]).
  repeat match goal with E : Ascii.eqb _ _ = false |- _ => rewrite E; clear E end.
  reflexivity.
Qed.

Lemma esc_char_special (a : ascii) :
  is_special a = true ->
  (2 <= String.length (esc_char a))%nat /\ occurs "&" (esc_char a) = true.
Proof.
  unfold is_special, esc_char.
  destruct (Ascii.eqb a "&"); [cbn; split; [lia|reflexivity]|].
  destruct (Ascii.eqb a "<"); [cbn; split; [lia|reflexivity]|].
  destruct (Ascii.eqb a ">"); [cbn; split; [lia|reflexivity]|].
  destruct (Ascii.eqb a quote_char); [cbn; split; [lia|reflexivity]|].
  discriminate.
Qed.

Lemma esc_string_plain (s : string) :
  has_special s = false -> esc_string s = s.
Proof.
  induction s as [|a r IH]; [reflexivity|]. cbn [has_special esc_string].
  intros H. apply orb_false_elim in H as [Ha Hr].
  rewrite (esc_char_plain a Ha), (IH Hr). reflexivity.
Qed.

Lemma esc_string_length (s : string) :
  (String.length s <= String.length (esc_string s))%nat /\
  (has_special s = true ->
   (String.length s < String.length (esc_string s))%nat).
Proof.
  induction s as [|a r [IH1 IH2]]; [cbn; split; [lia|discriminate]|].
  cbn [esc_string has_special String.length]. rewrite length_append.
  destruct (is_special a) eqn:Ha.
  - destruct (esc_char_special a Ha) as [Hl _]. cbn. split; [lia|]. lia.
  - rewrite (esc_char_plain a Ha). cbn. split; [lia|].
    intros Hr. specialize (IH2 Hr). lia.
Qed.

Lemma has_special_occurs (s : string) :
  occurs "&" s = true -> has_special s = true.
Proof.
  induction s as [|a r IH]; [discriminate|]. cbn [occurs has_special].
  intros H. apply orb_prop in H as [H|H].
  - unfold is_special. rewrite H. reflexivity.
  - rewrite (IH H). apply orb_true_r.
Qed.

Lemma esc_string_special (s : string) :
  has_special s = true -> has_special (esc_string s) = true.
Proof.
  intros H. apply has_special_occurs.
  induction s as [|a r IH]; [discriminate|].
  cbn [esc_string has_special] in *. rewrite occurs_app.
  apply orb_prop in H as [H|H].
  - destruct (esc_char_special a H) as [_ ->]. reflexivity.
  - rewrite (IH H). apply orb_true_r.
Qed.

(** X13. [escHtml] returns a string unchanged exactly when the string has
    none of the characters [&], [<], [>] and the double quote; and escaping
    an escaped string changes it again unless the original had none of them:
    escaping twice is harmless only for text that needed no escaping. *)
Theorem X13_escHtml_fixed_points (s : string) :
  (escHtml (Some s) = s <-> has_special s = false) /\
  (escHtml (Some (escHtml (Some s))) = escHtml (Some s)
   <-> has_special s = false).
Proof.
  rewrite !escHtml_esc_string.
  assert (fixed : forall t, esc_string t = t <-> has_special t = false).
  { intros t. split; [|apply esc_string_plain].
    intros E. destruct (has_special t) eqn:Ht; [|reflexivity].
    destruct (esc_string_length t) as [_ Hl]. specialize (Hl Ht).
    rewrite E in Hl. lia. }
  split; [apply fixed|]. rewrite fixed. split.
  - intros H. destruct (has_special s) eqn:Hs; [|reflexivity].
    rewrite (esc_string_special s Hs) in H. discriminate.
  - intros H. rewrite (esc_string_plain s H). exact H.
Qed.

(** ** The configuration URL *)

Lemma strip_last_segment_dir (dir file : string) :
  occurs "/" file = false ->
  strip_last_segment (dir +:+ String "/" file) = dir +:+ "/".
Proof.
  intros Hf. induction dir as [|c d IH].
  - rewrite !append_nil_l. cbn [strip_last_segment]. rewrite Hf. reflexivity.
  - rewrite !append_cons. cbn [strip_last_segment].
    rewrite occurs_app. cbn [occurs]. rewrite orb_true_r, andb_false_r, IH.
    reflexivity.
Qed.

Lemma strip_last_segment_flat (s : string) :
  occurs "/" s = false -> strip_last_segment s = s.
Proof.
  induction s as [|c r IH]; [reflexivity|]. cbn [occurs strip_last_segment].
  intros H. apply orb_false_elim in H as [Hc Hr].
  rewrite Hc, (IH Hr). reflexivity.
Qed.

(** X14. Without a [config] parameter, or with an empty one,
    [resolveConfigUrl] puts [config.json] in the directory of the page: the
    path up to and including its last slash is kept, whatever file name
    follows it, and a path that already ends in a slash is kept whole.  A
    non-empty [config] parameter is returned as it is, whatever the path. *)
Theorem X14_config_next_to_page (dir file : string) :
  occurs "/" file = false ->
  resolveConfigUrl None (dir +:+ String "/" file)
  = dir +:+ "/config.json" /\
  resolveConfigUrl (Some EmptyString) (dir +:+ String "/" file)
  = dir +:+ "/config.json" /\
  resolveConfigUrl None (dir +:+ "/") = dir +:+ "/config.json" /\
  (forall (c : ascii) (r path : string),
     resolveConfigUrl (Some (String c r)) path = String c r).
Proof.
  intros Hf. unfold resolveConfigUrl.
  rewrite (strip_last_segment_dir dir file Hf).
  rewrite (strip_last_segment_dir dir EmptyString eq_refl).
  rewrite append_assoc. auto.
Qed.

Lemma X14_config_next_to_page_witness :
  resolveConfigUrl None "/wwm/frostmist-pavilion/index.html"
  = "/wwm/frostmist-pavilion/config.json"%string.
Proof.
  apply (X14_config_next_to_page "/wwm/frostmist-pavilion" "index.html").
  reflexivity.
Defined.

(** ** What is on the page after a selection *)

Lemma repaint_view_same_attributes (offset : string -> result value)
    (fromTz toTz : string) (els1 els2 : list element) :
  map attributes els1 = map attributes els2 ->
  snd (repaint_view offset fromTz toTz els1) = None ->
  repaint_view offset fromTz toTz els2 = repaint_view offset fromTz toTz els1.
Proof.
  revert els2. induction els1 as [|a r1 IH]; intros [|b r2] Hm;
    try discriminate; [reflexivity|].
  cbn in Hm. injection Hm as Hb Hp Hr. cbn [repaint_view].
  rewrite Hb.
  destruct (convert_view offset (baseTime b) fromTz toTz) as [c|e];
    [|discriminate].
  specialize (IH r2 Hr).
  destruct (repaint_view offset fromTz toTz r1) as [r1' err1].
  cbn [snd]. intros ->. rewrite (IH eq_refl).
  unfold repaint. rewrite Hb, Hp. reflexivity.
Qed.

(** X15. What a pass that runs to its end leaves on the page depends on the
    base times, the prefixes and the two zones only: whatever the nodes
    showed before (another zone, the text of an interrupted pass) and
    whatever the cache held, the same selection gives the same page. *)
Theorem X15_pass_forgets_history
    (formatToParts : string -> error + list part)
    (p q : page) (s1 s2 : state) :
  reachable formatToParts s1 ->
  reachable formatToParts s2 ->
  baseTimezone q = baseTimezone p ->
  currentTimezone q = currentTimezone p ->
  map attributes (nodes q) = map attributes (nodes p) ->
  snd (fst (updateAllTimes formatToParts p s1)) = None ->
  fst (updateAllTimes formatToParts q s2)
  = fst (updateAllTimes formatToParts p s1).
Proof.
  intros R1 R2 Hb Hc Hm Hok.
  destruct (updateAllTimes_view formatToParts p s1) as [E1 _].
  destruct (updateAllTimes_view formatToParts q s2) as [E2 _].
  rewrite E1 in Hok |- *. rewrite E2. cbn [fst snd] in Hok |- *.
  rewrite Hb, Hc.
  rewrite (repaint_view_ext (resolve formatToParts (cache s2))
             (resolve formatToParts (cache s1))).
  2:{ intros k. rewrite (resolve_later _ _ _ k R1), (resolve_later _ _ _ k R2).
      reflexivity. }
  rewrite (repaint_view_same_attributes _ _ _ (nodes p) (nodes q))
    by (symmetry in Hm; auto).
  reflexivity.
Qed.

Lemma X15_pass_forgets_history_witness :
  fst (updateAllTimes sampleIntl
         (mkPage None "Asia/Kolkata"
            [mkElement "09:00" None [TextNode "20:00"; Span "day-offset" "-1"]])
         (snd (getOffsetMinutes sampleIntl "America/New_York" initial_state)))
  = fst (updateAllTimes sampleIntl
           (mkPage None "Asia/Kolkata" [mkElement "09:00" None []])
           initial_state).
Proof.
  apply (X15_pass_forgets_history sampleIntl
           (mkPage None "Asia/Kolkata" [mkElement "09:00" None []])
           (mkPage None "Asia/Kolkata"
              [mkElement "09:00" None
                 [TextNode "20:00"; Span "day-offset" "-1"]])
           initial_state
           (snd (getOffsetMinutes sampleIntl "America/New_York"
                   initial_state))).
  - apply rtc_refl.
  - apply later_step.
  - reflexivity.
  - reflexivity.
  - reflexivity.
  - reflexivity.
Defined.
